(** * Pokedex backend: a shallow embedding of [backend.py]

    The module under verification loads a CSV file of creature records into
    one SQLite table, [pokemon], and answers a handful of read queries.

    Layout of this development:
    - [Py]: the pieces of the Python runtime the module calls
      ([str.strip], [str.split], [str.lower], [list.index], [int], [float],
      [sorted], [set], exceptions);
    - [Sqlite]: the database as the connection sees it (the [pokemon] table,
      present or not, its rows in rowid order) and the statements the module
      executes, in a state-and-exception monad;
    - [Backend]: the functions of [backend.py], one definition each;
    - the properties.

    Modelling conventions.
    - A text is held as its UTF-8 encoding, in a [string] of bytes: this
      is what a CSV file holds and what SQLite stores.  The order of the
      bytes is the order of the code points, so [sorted] compares the
      encodings.  [str.lower], [str.strip], [int] and [float] work on the
      code points, with the tables of Unicode 14.0.0 as Python 3.11
      carries them.
    - A Python exception is a value of [Py.exn]; a computation that may raise
      returns [Py.result].
    - The database is the one open connection's view of it: statements
      take effect at once for that connection; transactions, and what a
      later connection finds after a crash, are not modelled.  The functions
      [get_con_cur] and [close_con_cur] only open and close that connection.
    - The CSV file is given by its content: [open] succeeds.  The file is
      read as UTF-8; what the functions do with bytes that are no UTF-8
      text says nothing about the module, which cannot read such a file.
    - [int] works under the interpreter's default limit of 4300 digits.
    - [const.SEP] is not part of the module: the field separator is the
      section variable [SEP], and every general statement holds for every
      separator. *)

From Stdlib Require Import ZArith String Ascii List SpecFloat Lia FunInd.
From stdpp Require Import gmap strings list sorting.

Local Open Scope string_scope.

(** * The Python runtime *)
Module Py.

(** Exceptions the module can meet. *)
Inductive exn : Type :=
| ValueError
| IndexError
| KeyError
| OverflowError
| OperationalError.

#[global] Instance exn_eq_dec : EqDecision exn.
Proof. solve_decision. Defined.

#[global] Instance spec_float_eq_dec : EqDecision spec_float.
Proof. solve_decision. Defined.

(** Outcome of an expression: it raises or it returns. *)
Inductive result (A : Type) : Type :=
| Raise (e : exn)
| Return (a : A).
Arguments Raise {A} e.
Arguments Return {A} a.

Definition rbind {A B} (r : result A) (k : A -> result B) : result B :=
  match r with
  | Raise e => Raise e
  | Return a => k a
  end.

Declare Scope result_scope.
Delimit Scope result_scope with result.
Notation "x <- r ;; k" := (rbind r (fun x => k))
  (at level 100, r at next level, right associativity) : result_scope.

(** ** Characters *)

(** A text is held as its UTF-8 encoding, a character of [string] being one
    byte; [code] is the value of a byte. *)
Definition code (c : ascii) : N := N_of_ascii c.
Definition byte (n : N) : ascii := ascii_of_N n.

Definition isupper (c : ascii) : bool :=
  let n := code c in ((65 <=? n) && (n <=? 90))%N.

Definition isdigit (c : ascii) : bool :=
  let n := code c in ((48 <=? n) && (n <=? 57))%N.

(** The lower case of an ASCII letter. *)
Definition lower_char (c : ascii) : ascii :=
  if isupper c then ascii_of_N (code c + 32) else c.

Fixpoint ascii_lower (s : string) : string :=
  match s with
  | "" => ""
  | String c s' => String (lower_char c) (ascii_lower s')
  end.

(** ** UTF-8 *)

(** A continuation byte, and the six bits it carries. *)
Definition continuation (b : ascii) : bool :=
  let n := code b in ((128 <=? n) && (n <=? 191))%N.
Definition six_bits (b : ascii) : N := (code b - 128)%N.

(** The code points of a text, or [None] when the bytes are not the UTF-8
    encoding of any text: a stray or missing continuation byte, an overlong
    form, a surrogate, a code point beyond U+10FFFF. *)
Fixpoint decode (s : string) : option (list N) :=
  match s with
  | "" => Some []
  | String b0 s1 =>
      let n0 := code b0 in
      if (n0 <? 128)%N then cons n0 <$> decode s1
      else if (n0 <? 194)%N then None
      else if (n0 <? 224)%N then
        match s1 with
        | String b1 s2 =>
            if continuation b1
            then cons ((n0 - 192) * 64 + six_bits b1)%N <$> decode s2
            else None
        | _ => None
        end
      else if (n0 <? 240)%N then
        match s1 with
        | String b1 (String b2 s3) =>
            let c := ((n0 - 224) * 4096 + six_bits b1 * 64 + six_bits b2)%N in
            if continuation b1 && continuation b2 && (2048 <=? c)%N
               && negb ((55296 <=? c) && (c <=? 57343))%N
            then cons c <$> decode s3
            else None
        | _ => None
        end
      else if (n0 <? 245)%N then
        match s1 with
        | String b1 (String b2 (String b3 s4)) =>
            let c := ((n0 - 240) * 262144 + six_bits b1 * 4096
                      + six_bits b2 * 64 + six_bits b3)%N in
            if continuation b1 && continuation b2 && continuation b3
               && (65536 <=? c)%N && (c <=? 1114111)%N
            then cons c <$> decode s4
            else None
        | _ => None
        end
      else None
  end.

(** The UTF-8 encoding of a code point and of a list of them. *)
Definition encode_char (c : N) : string :=
  if (c <? 128)%N then String (byte c) ""
  else if (c <? 2048)%N then
    String (byte (192 + c / 64)) (String (byte (128 + c mod 64)) "")
  else if (c <? 65536)%N then
    String (byte (224 + c / 4096))
      (String (byte (128 + (c / 64) mod 64))
         (String (byte (128 + c mod 64)) ""))
  else
    String (byte (240 + c / 262144))
      (String (byte (128 + (c / 4096) mod 64))
         (String (byte (128 + (c / 64) mod 64))
            (String (byte (128 + c mod 64)) ""))).

Fixpoint encode (l : list N) : string :=
  match l with
  | [] => ""
  | c :: l' => encode_char c ++ encode l'
  end.

(** A code point a text can hold: below U+110000 and no surrogate. *)
Definition scalar (c : N) : bool :=
  ((c <? 55296) || ((57343 <? c) && (c <? 1114112)))%N.

(** Induction along the cases of [decode]. *)
Functional Scheme decode_ind := Induction for decode Sort Prop.

(** ** The character tables

    The tables are those of the Unicode Character Database, version
    14.0.0, which is the one Python 3.11 carries. *)

(** [c] lies in one of the ranges, bounds included. *)
Definition in_ranges (c : N) (ranges : list (N * N)) : bool :=
  existsb (fun r => (r.1 <=? c) && (c <=? r.2))%N ranges.

(** The white space of [str.isspace], [str.strip] and the like. *)
Definition whitespace : list N :=
  [
   9; 10; 11; 12; 13; 28; 29; 30; 31; 32; 133; 160;
   5760; 8192; 8193; 8194; 8195; 8196; 8197; 8198; 8199; 8200; 8201; 8202;
   8232; 8233; 8239; 8287; 12288]%N.

Definition isspace (c : N) : bool := existsb (N.eqb c) whitespace.

(** The lower-case mapping of the characters from U+0080 on that have a
    single lower-case character: [(first, count, step, target)] stands for
    the [count] characters [first], [first + step], ..., mapped to [target],
    [target + step], ... *)
Definition lower_runs : list (N * N * N * N) :=
  [
   (192, 23, 1, 224); (216, 7, 1, 248); (256, 24, 2, 257); (306, 3, 2, 307);
   (313, 8, 2, 314); (330, 23, 2, 331); (376, 1, 1, 255); (377, 3, 2, 378);
   (385, 1, 1, 595); (386, 2, 2, 387); (390, 1, 1, 596); (391, 1, 1, 392);
   (393, 2, 1, 598); (395, 1, 1, 396); (398, 1, 1, 477); (399, 1, 1, 601);
   (400, 1, 1, 603); (401, 1, 1, 402); (403, 1, 1, 608); (404, 1, 1, 611);
   (406, 1, 1, 617); (407, 1, 1, 616); (408, 1, 1, 409); (412, 1, 1, 623);
   (413, 1, 1, 626); (415, 1, 1, 629); (416, 3, 2, 417); (422, 1, 1, 640);
   (423, 1, 1, 424); (425, 1, 1, 643); (428, 1, 1, 429); (430, 1, 1, 648);
   (431, 1, 1, 432); (433, 2, 1, 650); (435, 2, 2, 436); (439, 1, 1, 658);
   (440, 1, 1, 441); (444, 1, 1, 445); (452, 1, 1, 454); (453, 1, 1, 454);
   (455, 1, 1, 457); (456, 1, 1, 457); (458, 1, 1, 460); (459, 9, 2, 460);
   (478, 9, 2, 479); (497, 1, 1, 499); (498, 2, 2, 499); (502, 1, 1, 405);
   (503, 1, 1, 447); (504, 20, 2, 505); (544, 1, 1, 414); (546, 9, 2, 547);
   (570, 1, 1, 11365); (571, 1, 1, 572); (573, 1, 1, 410); (574, 1, 1, 11366);
   (577, 1, 1, 578); (579, 1, 1, 384); (580, 1, 1, 649); (581, 1, 1, 652);
   (582, 5, 2, 583); (880, 2, 2, 881); (886, 1, 1, 887); (895, 1, 1, 1011);
   (902, 1, 1, 940); (904, 3, 1, 941); (908, 1, 1, 972); (910, 2, 1, 973);
   (913, 17, 1, 945); (931, 9, 1, 963); (975, 1, 1, 983); (984, 12, 2, 985);
   (1012, 1, 1, 952); (1015, 1, 1, 1016); (1017, 1, 1, 1010); (1018, 1, 1, 1019);
   (1021, 3, 1, 891); (1024, 16, 1, 1104); (1040, 32, 1, 1072); (1120, 17, 2, 1121);
   (1162, 27, 2, 1163); (1216, 1, 1, 1231); (1217, 7, 2, 1218); (1232, 48, 2, 1233);
   (1329, 38, 1, 1377); (4256, 38, 1, 11520); (4295, 1, 1, 11559); (4301, 1, 1, 11565);
   (5024, 80, 1, 43888); (5104, 6, 1, 5112); (7312, 43, 1, 4304); (7357, 3, 1, 4349);
   (7680, 75, 2, 7681); (7838, 1, 1, 223); (7840, 48, 2, 7841); (7944, 8, 1, 7936);
   (7960, 6, 1, 7952); (7976, 8, 1, 7968); (7992, 8, 1, 7984); (8008, 6, 1, 8000);
   (8025, 4, 2, 8017); (8040, 8, 1, 8032); (8072, 8, 1, 8064); (8088, 8, 1, 8080);
   (8104, 8, 1, 8096); (8120, 2, 1, 8112); (8122, 2, 1, 8048); (8124, 1, 1, 8115);
   (8136, 4, 1, 8050); (8140, 1, 1, 8131); (8152, 2, 1, 8144); (8154, 2, 1, 8054);
   (8168, 2, 1, 8160); (8170, 2, 1, 8058); (8172, 1, 1, 8165); (8184, 2, 1, 8056);
   (8186, 2, 1, 8060); (8188, 1, 1, 8179); (8486, 1, 1, 969); (8490, 1, 1, 107);
   (8491, 1, 1, 229); (8498, 1, 1, 8526); (8544, 16, 1, 8560); (8579, 1, 1, 8580);
   (9398, 26, 1, 9424); (11264, 48, 1, 11312); (11360, 1, 1, 11361); (11362, 1, 1, 619);
   (11363, 1, 1, 7549); (11364, 1, 1, 637); (11367, 3, 2, 11368); (11373, 1, 1, 593);
   (11374, 1, 1, 625); (11375, 1, 1, 592); (11376, 1, 1, 594); (11378, 1, 1, 11379);
   (11381, 1, 1, 11382); (11390, 2, 1, 575); (11392, 50, 2, 11393); (11499, 2, 2, 11500);
   (11506, 1, 1, 11507); (42560, 23, 2, 42561); (42624, 14, 2, 42625); (42786, 7, 2, 42787);
   (42802, 31, 2, 42803); (42873, 2, 2, 42874); (42877, 1, 1, 7545); (42878, 5, 2, 42879);
   (42891, 1, 1, 42892); (42893, 1, 1, 613); (42896, 2, 2, 42897); (42902, 10, 2, 42903);
   (42922, 1, 1, 614); (42923, 1, 1, 604); (42924, 1, 1, 609); (42925, 1, 1, 620);
   (42926, 1, 1, 618); (42928, 1, 1, 670); (42929, 1, 1, 647); (42930, 1, 1, 669);
   (42931, 1, 1, 43859); (42932, 8, 2, 42933); (42948, 1, 1, 42900); (42949, 1, 1, 642);
   (42950, 1, 1, 7566); (42951, 2, 2, 42952); (42960, 1, 1, 42961); (42966, 2, 2, 42967);
   (42997, 1, 1, 42998); (65313, 26, 1, 65345); (66560, 40, 1, 66600); (66736, 36, 1, 66776);
   (66928, 19, 2, 66967); (66929, 5, 2, 66968); (66941, 7, 2, 66980); (66957, 3, 2, 66996);
   (66965, 1, 1, 67004); (68736, 51, 1, 68800); (71840, 32, 1, 71872); (93760, 32, 1, 93792);
   (125184, 34, 1, 125218)]%N.

Definition expand_run (r : N * N * N * N) : list (N * N) :=
  let '(first, count, step, target) := r in
  (fun k => (first + N.of_nat k * step, target + N.of_nat k * step)%N)
    <$> seq 0 (N.to_nat count).

Definition lower_table : list (N * N) :=
  Eval vm_compute in concat (expand_run <$> lower_runs).

Fixpoint assoc (c : N) (table : list (N * N)) : option N :=
  match table with
  | [] => None
  | (k, v) :: table' => if (c =? k)%N then Some v else assoc c table'
  end.

(** The full lower-case mapping of one character, out of context:
    the ASCII capitals, U+0130 (capital I with a dot above, which becomes
    two characters), the table, and every other character unchanged. *)
Definition to_lower_full (c : N) : list N :=
  if (c <? 128)%N then
    if ((65 <=? c) && (c <=? 90))%N then [(c + 32)%N] else [c]
  else if (c =? 304)%N then [105; 775]%N
  else
    match assoc c lower_table with
    | Some t => [t]
    | None => [c]
    end.

(** A character that [lower] leaves as it is wherever it stands: it is
    its own lower case and no capital sigma. *)
Definition stable (c : N) : bool :=
  negb (c =? 931)%N && bool_decide (to_lower_full c = [c]).

(** The case-ignorable characters. *)
Definition case_ignorable_ranges : list (N * N) :=
  [
   (39, 39); (46, 46); (58, 58); (94, 94); (96, 96);
   (168, 168); (173, 173); (175, 175); (180, 180); (183, 184);
   (688, 879); (884, 885); (890, 890); (900, 901); (903, 903);
   (1155, 1161); (1369, 1369); (1375, 1375); (1425, 1469); (1471, 1471);
   (1473, 1474); (1476, 1477); (1479, 1479); (1524, 1524); (1536, 1541);
   (1552, 1562); (1564, 1564); (1600, 1600); (1611, 1631); (1648, 1648);
   (1750, 1757); (1759, 1768); (1770, 1773); (1807, 1807); (1809, 1809);
   (1840, 1866); (1958, 1968); (2027, 2037); (2042, 2042); (2045, 2045);
   (2070, 2093); (2137, 2139); (2184, 2184); (2192, 2193); (2200, 2207);
   (2249, 2306); (2362, 2362); (2364, 2364); (2369, 2376); (2381, 2381);
   (2385, 2391); (2402, 2403); (2417, 2417); (2433, 2433); (2492, 2492);
   (2497, 2500); (2509, 2509); (2530, 2531); (2558, 2558); (2561, 2562);
   (2620, 2620); (2625, 2626); (2631, 2632); (2635, 2637); (2641, 2641);
   (2672, 2673); (2677, 2677); (2689, 2690); (2748, 2748); (2753, 2757);
   (2759, 2760); (2765, 2765); (2786, 2787); (2810, 2815); (2817, 2817);
   (2876, 2876); (2879, 2879); (2881, 2884); (2893, 2893); (2901, 2902);
   (2914, 2915); (2946, 2946); (3008, 3008); (3021, 3021); (3072, 3072);
   (3076, 3076); (3132, 3132); (3134, 3136); (3142, 3144); (3146, 3149);
   (3157, 3158); (3170, 3171); (3201, 3201); (3260, 3260); (3263, 3263);
   (3270, 3270); (3276, 3277); (3298, 3299); (3328, 3329); (3387, 3388);
   (3393, 3396); (3405, 3405); (3426, 3427); (3457, 3457); (3530, 3530);
   (3538, 3540); (3542, 3542); (3633, 3633); (3636, 3642); (3654, 3662);
   (3761, 3761); (3764, 3772); (3782, 3782); (3784, 3789); (3864, 3865);
   (3893, 3893); (3895, 3895); (3897, 3897); (3953, 3966); (3968, 3972);
   (3974, 3975); (3981, 3991); (3993, 4028); (4038, 4038); (4141, 4144);
   (4146, 4151); (4153, 4154); (4157, 4158); (4184, 4185); (4190, 4192);
   (4209, 4212); (4226, 4226); (4229, 4230); (4237, 4237); (4253, 4253);
   (4348, 4348); (4957, 4959); (5906, 5908); (5938, 5939); (5970, 5971);
   (6002, 6003); (6068, 6069); (6071, 6077); (6086, 6086); (6089, 6099);
   (6103, 6103); (6109, 6109); (6155, 6159); (6211, 6211); (6277, 6278);
   (6313, 6313); (6432, 6434); (6439, 6440); (6450, 6450); (6457, 6459);
   (6679, 6680); (6683, 6683); (6742, 6742); (6744, 6750); (6752, 6752);
   (6754, 6754); (6757, 6764); (6771, 6780); (6783, 6783); (6823, 6823);
   (6832, 6862); (6912, 6915); (6964, 6964); (6966, 6970); (6972, 6972);
   (6978, 6978); (7019, 7027); (7040, 7041); (7074, 7077); (7080, 7081);
   (7083, 7085); (7142, 7142); (7144, 7145); (7149, 7149); (7151, 7153);
   (7212, 7219); (7222, 7223); (7288, 7293); (7376, 7378); (7380, 7392);
   (7394, 7400); (7405, 7405); (7412, 7412); (7416, 7417); (7468, 7530);
   (7544, 7544); (7579, 7679); (8125, 8125); (8127, 8129); (8141, 8143);
   (8157, 8159); (8173, 8175); (8189, 8190); (8203, 8207); (8216, 8217);
   (8228, 8228); (8231, 8231); (8234, 8238); (8288, 8292); (8294, 8303);
   (8305, 8305); (8319, 8319); (8336, 8348); (8400, 8432); (11388, 11389);
   (11503, 11505); (11631, 11631); (11647, 11647); (11744, 11775); (11823, 11823);
   (12293, 12293); (12330, 12333); (12337, 12341); (12347, 12347); (12441, 12446);
   (12540, 12542); (40981, 40981); (42232, 42237); (42508, 42508); (42607, 42610);
   (42612, 42621); (42623, 42623); (42652, 42655); (42736, 42737); (42752, 42785);
   (42864, 42864); (42888, 42890); (42994, 42996); (43000, 43001); (43010, 43010);
   (43014, 43014); (43019, 43019); (43045, 43046); (43052, 43052); (43204, 43205);
   (43232, 43249); (43263, 43263); (43302, 43309); (43335, 43345); (43392, 43394);
   (43443, 43443); (43446, 43449); (43452, 43453); (43471, 43471); (43493, 43494);
   (43561, 43566); (43569, 43570); (43573, 43574); (43587, 43587); (43596, 43596);
   (43632, 43632); (43644, 43644); (43696, 43696); (43698, 43700); (43703, 43704);
   (43710, 43711); (43713, 43713); (43741, 43741); (43756, 43757); (43763, 43764);
   (43766, 43766); (43867, 43871); (43881, 43883); (44005, 44005); (44008, 44008);
   (44013, 44013); (64286, 64286); (64434, 64450); (65024, 65039); (65043, 65043);
   (65056, 65071); (65106, 65106); (65109, 65109); (65279, 65279); (65287, 65287);
   (65294, 65294); (65306, 65306); (65342, 65342); (65344, 65344); (65392, 65392);
   (65438, 65439); (65507, 65507); (65529, 65531); (66045, 66045); (66272, 66272);
   (66422, 66426); (67456, 67461); (67463, 67504); (67506, 67514); (68097, 68099);
   (68101, 68102); (68108, 68111); (68152, 68154); (68159, 68159); (68325, 68326);
   (68900, 68903); (69291, 69292); (69446, 69456); (69506, 69509); (69633, 69633);
   (69688, 69702); (69744, 69744); (69747, 69748); (69759, 69761); (69811, 69814);
   (69817, 69818); (69821, 69821); (69826, 69826); (69837, 69837); (69888, 69890);
   (69927, 69931); (69933, 69940); (70003, 70003); (70016, 70017); (70070, 70078);
   (70089, 70092); (70095, 70095); (70191, 70193); (70196, 70196); (70198, 70199);
   (70206, 70206); (70367, 70367); (70371, 70378); (70400, 70401); (70459, 70460);
   (70464, 70464); (70502, 70508); (70512, 70516); (70712, 70719); (70722, 70724);
   (70726, 70726); (70750, 70750); (70835, 70840); (70842, 70842); (70847, 70848);
   (70850, 70851); (71090, 71093); (71100, 71101); (71103, 71104); (71132, 71133);
   (71219, 71226); (71229, 71229); (71231, 71232); (71339, 71339); (71341, 71341);
   (71344, 71349); (71351, 71351); (71453, 71455); (71458, 71461); (71463, 71467);
   (71727, 71735); (71737, 71738); (71995, 71996); (71998, 71998); (72003, 72003);
   (72148, 72151); (72154, 72155); (72160, 72160); (72193, 72202); (72243, 72248);
   (72251, 72254); (72263, 72263); (72273, 72278); (72281, 72283); (72330, 72342);
   (72344, 72345); (72752, 72758); (72760, 72765); (72767, 72767); (72850, 72871);
   (72874, 72880); (72882, 72883); (72885, 72886); (73009, 73014); (73018, 73018);
   (73020, 73021); (73023, 73029); (73031, 73031); (73104, 73105); (73109, 73109);
   (73111, 73111); (73459, 73460); (78896, 78904); (92912, 92916); (92976, 92982);
   (92992, 92995); (94031, 94031); (94095, 94111); (94176, 94177); (94179, 94180);
   (110576, 110579); (110581, 110587); (110589, 110590); (113821, 113822); (113824, 113827);
   (118528, 118573); (118576, 118598); (119143, 119145); (119155, 119170); (119173, 119179);
   (119210, 119213); (119362, 119364); (121344, 121398); (121403, 121452); (121461, 121461);
   (121476, 121476); (121499, 121503); (121505, 121519); (122880, 122886); (122888, 122904);
   (122907, 122913); (122915, 122916); (122918, 122922); (123184, 123197); (123566, 123566);
   (123628, 123631); (125136, 125142); (125252, 125259); (127995, 127999); (917505, 917505);
   (917536, 917631); (917760, 917999)]%N.

Definition case_ignorable (c : N) : bool := in_ranges c case_ignorable_ranges.

(** The cased characters that are not case-ignorable: [cased] is only
    asked about a character that is not case-ignorable. *)
Definition cased_ranges : list (N * N) :=
  [
   (65, 90); (97, 122); (170, 170); (181, 181); (186, 186);
   (192, 214); (216, 246); (248, 442); (444, 447); (452, 659);
   (661, 687); (880, 883); (886, 887); (891, 893); (895, 895);
   (902, 902); (904, 906); (908, 908); (910, 929); (931, 1013);
   (1015, 1153); (1162, 1327); (1329, 1366); (1376, 1416); (4256, 4293);
   (4295, 4295); (4301, 4301); (4304, 4346); (4349, 4351); (5024, 5109);
   (5112, 5117); (7296, 7304); (7312, 7354); (7357, 7359); (7424, 7467);
   (7531, 7543); (7545, 7578); (7680, 7957); (7960, 7965); (7968, 8005);
   (8008, 8013); (8016, 8023); (8025, 8025); (8027, 8027); (8029, 8029);
   (8031, 8061); (8064, 8116); (8118, 8124); (8126, 8126); (8130, 8132);
   (8134, 8140); (8144, 8147); (8150, 8155); (8160, 8172); (8178, 8180);
   (8182, 8188); (8450, 8450); (8455, 8455); (8458, 8467); (8469, 8469);
   (8473, 8477); (8484, 8484); (8486, 8486); (8488, 8488); (8490, 8493);
   (8495, 8500); (8505, 8505); (8508, 8511); (8517, 8521); (8526, 8526);
   (8544, 8575); (8579, 8580); (9398, 9449); (11264, 11387); (11390, 11492);
   (11499, 11502); (11506, 11507); (11520, 11557); (11559, 11559); (11565, 11565);
   (42560, 42605); (42624, 42651); (42786, 42863); (42865, 42887); (42891, 42894);
   (42896, 42954); (42960, 42961); (42963, 42963); (42965, 42969); (42997, 42998);
   (43002, 43002); (43824, 43866); (43872, 43880); (43888, 43967); (64256, 64262);
   (64275, 64279); (65313, 65338); (65345, 65370); (66560, 66639); (66736, 66771);
   (66776, 66811); (66928, 66938); (66940, 66954); (66956, 66962); (66964, 66965);
   (66967, 66977); (66979, 66993); (66995, 67001); (67003, 67004); (68736, 68786);
   (68800, 68850); (71840, 71903); (93760, 93823); (119808, 119892); (119894, 119964);
   (119966, 119967); (119970, 119970); (119973, 119974); (119977, 119980); (119982, 119993);
   (119995, 119995); (119997, 120003); (120005, 120069); (120071, 120074); (120077, 120084);
   (120086, 120092); (120094, 120121); (120123, 120126); (120128, 120132); (120134, 120134);
   (120138, 120144); (120146, 120485); (120488, 120512); (120514, 120538); (120540, 120570);
   (120572, 120596); (120598, 120628); (120630, 120654); (120656, 120686); (120688, 120712);
   (120714, 120744); (120746, 120770); (120772, 120779); (122624, 122633); (122635, 122654);
   (125184, 125251); (127280, 127305); (127312, 127337); (127344, 127369)]%N.

Definition cased (c : N) : bool := in_ranges c cased_ranges.

(** The characters with a decimal digit value: the zeros of the runs of
    ten digits. *)
Definition decimal_zeros : list N :=
  [
   48; 1632; 1776; 1984; 2406; 2534; 2662; 2790; 2918; 3046;
   3174; 3302; 3430; 3558; 3664; 3792; 3872; 4160; 4240; 6112;
   6160; 6470; 6608; 6784; 6800; 6992; 7088; 7232; 7248; 42528;
   43216; 43264; 43472; 43504; 43600; 44016; 65296; 66720; 68912; 69734;
   69872; 69942; 70096; 70384; 70736; 70864; 71248; 71360; 71472; 71904;
   72016; 72784; 73040; 73120; 92768; 92864; 93008; 120782; 120792; 120802;
   120812; 120822; 123200; 123632; 125264; 130032]%N.

Definition decimal (c : N) : option N :=
  (fun z => c - z)%N <$> find (fun z => (z <=? c) && (c <=? z + 9))%N decimal_zeros.

(** ** [str] methods *)

(** The text from its first character that is not case-ignorable on. *)
Fixpoint skip_case_ignorable (l : list N) : list N :=
  match l with
  | [] => []
  | c :: l' => if case_ignorable c then skip_case_ignorable l' else l
  end.

(** The lower case of a capital sigma, U+03A3: the final form U+03C2 when
    a cased character comes before it and none after it, case-ignorable
    characters skipped on both sides, and U+03C3 otherwise.  [before] is
    the text before the sigma, last character first. *)
Definition final_sigma (before after : list N) : N :=
  let preceded :=
    match skip_case_ignorable before with
    | c :: _ => cased c
    | [] => false
    end in
  let followed :=
    match skip_case_ignorable after with
    | c :: _ => cased c
    | [] => false
    end in
  if preceded && negb followed then 962%N else 963%N.

Fixpoint lower_from (before : list N) (l : list N) : list N :=
  match l with
  | [] => []
  | c :: l' =>
      (if (c =? 931)%N then [final_sigma before l'] else to_lower_full c)
        ++ lower_from (c :: before) l'
  end.

(** [s.lower()].  Bytes that are no text are left alone but for their
    ASCII letters. *)
Definition lower (s : string) : string :=
  match decode s with
  | Some l => encode (lower_from [] l)
  | None => ascii_lower s
  end.

(** [s] without [p] in front, when it starts with it. *)
Fixpoint drop_prefix (p s : string) : option string :=
  match p, s with
  | "", _ => Some s
  | String a p', String b s' =>
      if Ascii.eqb a b then drop_prefix p' s' else None
  | _, "" => None
  end.

(** [s] without the first of [patterns] it starts with. *)
Fixpoint drop_any (patterns : list string) (s : string) : option string :=
  match patterns with
  | [] => None
  | p :: patterns' =>
      match drop_prefix p s with
      | Some s' => Some s'
      | None => drop_any patterns' s
      end
  end.

(** [s] without the [patterns] in front of it, one after another as long
    as there is one; [fuel] bounds their number. *)
Fixpoint strip_front (patterns : list string) (fuel : nat) (s : string)
  : string :=
  match fuel with
  | O => s
  | S fuel' =>
      match drop_any patterns s with
      | Some s' => strip_front patterns fuel' s'
      | None => s
      end
  end.

(** The encodings of the white-space characters.  In a text, one of them
    at the front, or at the back, is a white-space character there. *)
Definition space_codes : list string := encode_char <$> whitespace.

Definition lstrip (s : string) : string :=
  strip_front space_codes (String.length s) s.

Definition rstrip (s : string) : string :=
  String.rev
    (strip_front (String.rev <$> space_codes) (String.length s) (String.rev s)).

(** [s.strip()] *)
Definition strip (s : string) : string := rstrip (lstrip s).

(** [s.split(sep)] for a non-empty [sep]: the text is cut at every
    occurrence of [sep], scanning from the left, occurrences do not
    overlap.  [skip] counts the characters of the occurrence being stepped
    over, [cur] is the current field, reversed. *)
Fixpoint split_from (sep : string) (skip : nat) (cur : string) (s : string)
  : list string :=
  match s with
  | "" => [String.rev cur]
  | String c s' =>
      match skip with
      | S k => split_from sep k cur s'
      | O =>
          if String.prefix sep s
          then String.rev cur :: split_from sep (Nat.pred (String.length sep)) "" s'
          else split_from sep 0 (String c cur) s'
      end
  end.

(** [s.split(sep)]: an empty separator raises [ValueError]. *)
Definition split (s sep : string) : result (list string) :=
  match sep with
  | "" => Raise ValueError
  | _ => Return (split_from sep 0 "" s)
  end.

(** ** Lists and dicts *)

(** [l.index(x)]: position of the first element equal to [x]. *)
Fixpoint index (l : list string) (x : string) : result nat :=
  match l with
  | [] => Raise ValueError
  | y :: l' =>
      if decide (y = x) then Return 0
      else (i <- index l' x ;; Return (S i))%result
  end.

(** [l[i]] for [i >= 0]. *)
Definition getitem {A} (l : list A) (i : nat) : result A :=
  match l !! i with
  | Some x => Return x
  | None => Raise IndexError
  end.

(** [d[k]] *)
Definition dict_getitem (d : gmap string nat) (k : string) : result nat :=
  match d !! k with
  | Some v => Return v
  | None => Raise KeyError
  end.

(** [sorted(l)] on strings and on integers.  The order is total and
    antisymmetric, so the sorted arrangement of a list is unique and any
    sorting function computes what Python's stable sort does. *)
Definition sorted (l : list string) : list string := merge_sort String.le l.
Definition sorted_int (l : list Z) : list Z := merge_sort Z.le l.

(** [set(l)] and the iteration over a set (in whatever order it has). *)
Definition set_of (l : list string) : gset string := list_to_set l.
Definition set_iter (s : gset string) : list string := elements s.

(** ** Text files *)

(** Reading in text mode translates the line ends CR LF and CR to LF. *)
Fixpoint universal_newlines (s : string) : string :=
  match s with
  | "" => ""
  | String c s' =>
      if Ascii.eqb c "013" then
        String "010"
          match s' with
          | String c' s'' =>
              if Ascii.eqb c' "010" then universal_newlines s''
              else universal_newlines s'
          | "" => ""
          end
      else String c (universal_newlines s')
  end.

(** The lines of a text, each with its line end; the last one has none
    when the text does not end with one. *)
Fixpoint lines (s : string) : list string :=
  match s with
  | "" => []
  | String c s' =>
      if Ascii.eqb c "010" then String c "" :: lines s'
      else
        match lines s' with
        | [] => [String c ""]
        | l :: ls => String c l :: ls
        end
  end.

(** A file object open for reading: the lines not read yet. *)
Definition file : Type := list string.

(** [open(filename)] on a file with the given content. *)
Definition open (content : string) : file := lines (universal_newlines content).

(** [f.readline()]: the next line, or the empty string at the end. *)
Definition readline (f : file) : string * file :=
  match f with
  | [] => ("", [])
  | l :: f' => (l, f')
  end.

(** ** Numeric literals: [int(s)] and [float(s)] *)

(** Longest prefix of decimal digits, and what follows it. *)
Fixpoint span_digits (s : string) : string * string :=
  match s with
  | "" => ("", "")
  | String c s' =>
      if isdigit c
      then let (d, r) := span_digits s' in (String c d, r)
      else ("", s)
  end.

(** Value of a string of decimal digits, most significant first. *)
Fixpoint digits_value (acc : N) (s : string) : N :=
  match s with
  | "" => acc
  | String c s' => digits_value (10 * acc + (code c - 48)) s'
  end.

(** An optional sign: [true] for a minus. *)
Definition take_sign (s : string) : bool * string :=
  match s with
  | String "-" s' => (true, s')
  | String "+" s' => (false, s')
  | _ => (false, s)
  end.

(** Digit-group underscores: each one stands between two digits.  Returns
    the text without them, or [None] when one is misplaced.  [prev] is the
    character before [s]. *)
Fixpoint remove_underscores (prev : option ascii) (s : string) : option string :=
  match s with
  | "" =>
      match prev with
      | Some "_"%char => None
      | _ => Some ""
      end
  | String c s' =>
      if Ascii.eqb c "_" then
        match prev with
        | Some p =>
            if isdigit p then remove_underscores (Some c) s' else None
        | None => None
        end
      else
        match prev with
        | Some "_"%char =>
            if isdigit c
            then String c <$> remove_underscores (Some c) s'
            else None
        | _ => String c <$> remove_underscores (Some c) s'
        end
  end.

(** What [int] and [float] read in a text: a text with a character
    beyond ASCII has its white space turned into spaces and its decimal
    digits, of whatever script, into ASCII digits, and is cut after the
    first other character beyond U+007E, which becomes a question mark. *)
Fixpoint number_text_from (l : list N) : string :=
  match l with
  | [] => ""
  | c :: l' =>
      if (c <? 127)%N then String (byte c) (number_text_from l')
      else if isspace c then String " " (number_text_from l')
      else
        match decimal c with
        | Some d => String (byte (48 + d)) (number_text_from l')
        | None => "?"
        end
  end.

Definition number_text (s : string) : string :=
  match decode s with
  | Some l => if forallb (fun c => c <? 128)%N l then s else number_text_from l
  | None => s
  end.

(** The white space [int] and [float] skip at both ends of what they read:
    the space, TAB, LF, VT, FF and CR. *)
Definition ascii_isspace (c : ascii) : bool :=
  let n := code c in ((n =? 32) || (9 <=? n) && (n <=? 13))%N.

Fixpoint ascii_lstrip (s : string) : string :=
  match s with
  | "" => ""
  | String c s' => if ascii_isspace c then ascii_lstrip s' else s
  end.

Fixpoint ascii_rstrip (s : string) : string :=
  match s with
  | "" => ""
  | String c s' =>
      match ascii_rstrip s' with
      | "" => if ascii_isspace c then "" else String c ""
      | r => String c r
      end
  end.

Definition ascii_strip (s : string) : string := ascii_rstrip (ascii_lstrip s).

(** The most digits [int] reads, [sys.get_int_max_str_digits()] as it is
    by default. *)
Definition int_max_str_digits : N := 4300.

(** [int(s)], base ten: white space around, an optional sign, digits. *)
Definition int (s : string) : result Z :=
  let (neg, body) := take_sign (ascii_strip (number_text s)) in
  match remove_underscores None body with
  | None => Raise ValueError
  | Some ds =>
      match span_digits ds with
      | ("", _) => Raise ValueError
      | (d, "") =>
          if (int_max_str_digits <? N.of_nat (String.length d))%N
          then Raise ValueError
          else
            let n := Z.of_N (digits_value 0 d) in
            Return (if neg then - n else n)%Z
      | (_, _) => Raise ValueError
      end
  end.

(** The binary64 number nearest to [m * 10 ^ e10], ties to even; overflow
    gives an infinity and underflow a zero, as [float] does. *)
Definition float_of_decimal (neg : bool) (m : N) (e10 : Z) : spec_float :=
  match m with
  | N0 => S754_zero neg
  | Npos p =>
      if (0 <=? e10)%Z
      then binary_round 53 1024 neg (p * Z.to_pos (10 ^ e10)) 0
      else SFdiv 53 1024 (S754_finite neg p 0)
                         (S754_finite false (Z.to_pos (10 ^ (- e10))) 0)
  end.

(** The exponent part of a decimal literal: nothing, or [e] or [E], an
    optional sign and at least one digit, up to the end of the text. *)
Definition parse_exponent (s : string) : option Z :=
  match s with
  | "" => Some 0%Z
  | String c s' =>
      if Ascii.eqb c "e" || Ascii.eqb c "E" then
        let (neg, s'') := take_sign s' in
        match span_digits s'' with
        | ("", _) => None
        | (d, "") =>
            let n := Z.of_N (digits_value 0 d) in
            Some (if neg then - n else n)%Z
        | (_, _) => None
        end
      else None
  end.

(** [float(s)]: white space around, an optional sign, then [inf],
    [infinity] or [nan] in any case, or a decimal literal with at least one
    digit, an optional fraction and an optional exponent. *)
Definition float (s : string) : result spec_float :=
  match remove_underscores None (ascii_strip (number_text s)) with
  | None => Raise ValueError
  | Some t =>
      let (neg, body) := take_sign t in
      let low := ascii_lower body in
      if decide (low = "inf" \/ low = "infinity") then Return (S754_infinity neg)
      else if decide (low = "nan") then Return S754_nan
      else
        let (ip, r) := span_digits body in
        let (fp, r) :=
          match r with
          | String "." r' => span_digits r'
          | _ => ("", r)
          end in
        match ip ++ fp with
        | "" => Raise ValueError
        | ds =>
            match parse_exponent r with
            | None => Raise ValueError
            | Some e =>
                Return (float_of_decimal neg (digits_value 0 ds)
                          (e - Z.of_nat (String.length fp)))
            end
        end
  end.

End Py.


(** * The database *)
Module Sqlite.
Import Py.

(** One row of the table
    [pokemon (name TEXT, species_id INTEGER, height REAL, weight REAL,
              type_1 TEXT, type_2 TEXT, url_image TEXT,
              generation_id INTEGER, evolves_from_species_id TEXT)],
    which is also the tuple a nine-column [SELECT] hands back.  A [REAL]
    cell reads back as a float or as [None] (SQL [NULL]). *)
Record row : Type := Row {
  name : string;
  species_id : Z;
  height : option spec_float;
  weight : option spec_float;
  type_1 : string;
  type_2 : string;
  url_image : string;
  generation_id : Z;
  evolves_from_species_id : string
}.

#[global] Instance row_eq_dec : EqDecision row.
Proof. solve_decision. Defined.

(** The database as the open connection sees it: the table is absent
    ([None]) or holds its rows in rowid order, the order of insertion. *)
Record database : Type := Database { pokemon : option (list row) }.

(** Code that runs against the connection: it returns or raises, and
    leaves a database behind in both cases. *)
Definition M (A : Type) : Type := database -> result A * database.

Definition ret {A} (a : A) : M A := fun db => (Return a, db).

Definition bind {A B} (m : M A) (k : A -> M B) : M B :=
  fun db =>
    match m db with
    | (Raise e, db') => (Raise e, db')
    | (Return a, db') => k a db'
    end.

(** A pure expression evaluated in the middle of such code. *)
Definition lift {A} (r : result A) : M A := fun db => (r, db).

(** [try: m except e: handler] *)
Definition try_except {A} (m : M A) (e : exn) (handler : M A) : M A :=
  fun db =>
    match m db with
    | (Raise e', db') =>
        if decide (e' = e) then handler db' else (Raise e', db')
    | (Return a, db') => (Return a, db')
    end.

Declare Scope db_scope.
Delimit Scope db_scope with db.
Notation "x <- m ;; k" := (bind m (fun x => k))
  (at level 100, m at next level, right associativity) : db_scope.
Notation "m ;;; k" := (bind m (fun _ => k))
  (at level 100, right associativity) : db_scope.

(** [for x in xs: body(x)] *)
Fixpoint for_each {A} (xs : list A) (body : A -> M unit) : M unit :=
  match xs with
  | [] => ret tt
  | x :: xs' => (body x ;;; for_each xs' body)%db
  end.

(** ** Statements *)

(** [DROP TABLE IF EXISTS pokemon] *)
Definition drop_table_if_exists : M unit :=
  fun _ => (Return tt, Database None).

(** [CREATE TABLE pokemon (...)] *)
Definition create_table_pokemon : M unit :=
  fun db =>
    match pokemon db with
    | Some _ => (Raise OperationalError, db)
    | None => (Return tt, Database (Some []))
    end.

(** The nine Python values bound to the placeholders of the [INSERT]. *)
Record params : Type := Params {
  p_pokemon : string;
  p_species_id : Z;
  p_height : spec_float;
  p_weight : spec_float;
  p_type_1 : string;
  p_type_2 : string;
  p_url_image : string;
  p_generation_id : Z;
  p_evolves_from_species_id : string
}.

(** Binding a Python [int]: it has to fit a signed 64-bit integer. *)
Definition bind_integer (n : Z) : result Z :=
  if decide (- 2 ^ 63 <= n < 2 ^ 63)%Z then Return n else Raise OverflowError.

(** Binding a Python [float] to a [REAL] column: a NaN is stored as [NULL];
    a float with an integral value is kept as that integer and read back
    as a float, which loses the sign of a zero. *)
Definition bind_real (f : spec_float) : option spec_float :=
  match f with
  | S754_nan => None
  | S754_zero _ => Some (S754_zero false)
  | _ => Some f
  end.

Definition bind_params (p : params) : result row :=
  (sid <- bind_integer (p_species_id p) ;;
   gid <- bind_integer (p_generation_id p) ;;
   Return (Row (p_pokemon p) sid (bind_real (p_height p))
             (bind_real (p_weight p)) (p_type_1 p) (p_type_2 p)
             (p_url_image p) gid (p_evolves_from_species_id p)))%result.

(** [INSERT INTO pokemon VALUES (?, ?, ?, ?, ?, ?, ?, ?, ?)] *)
Definition insert_into_pokemon (p : params) : M unit :=
  fun db =>
    match pokemon db with
    | None => (Raise OperationalError, db)
    | Some rows =>
        match bind_params p with
        | Raise e => (Raise e, db)
        | Return r => (Return tt, Database (Some (rows ++ [r])%list))
        end
    end.

(** Preparing a statement that names the [pokemon] table: the table has to
    be there.  [cur.execute(query, parameters)] prepares the statement,
    then binds the parameters, then runs it. *)
Definition prepare : M unit :=
  fun db =>
    match pokemon db with
    | None => (Raise OperationalError, db)
    | Some _ => (Return tt, db)
    end.

(** [SELECT cols FROM pokemon WHERE cond], the rows in rowid order: what
    the cursor holds after [execute]. *)
Definition select {A} (cols : row -> A) (cond : row -> Prop)
    `{!forall r, Decision (cond r)} : M (list A) :=
  fun db =>
    match pokemon db with
    | None => (Raise OperationalError, db)
    | Some rows => (Return (cols <$> filter cond rows), db)
    end.

(** [cur.fetchall()] and [cur.fetchone()] on what the cursor holds. *)
Definition fetchall {A} (rs : list A) : list A := rs.
Definition fetchone {A} (rs : list A) : option A := head rs.

(** [con.commit()]: nothing changes for the connection itself. *)
Definition commit : M unit := ret tt.

End Sqlite.

(** * The module [backend.py] *)

Import Py Sqlite.
Local Open Scope db_scope.

Section Backend.

(** [const.SEP], the field separator of the data set. *)
Variable SEP : string.

Definition columns : list string :=
  ["pokemon"; "species_id"; "height"; "weight"; "type_1"; "type_2";
   "url_image"; "generation_id"; "evolves_from_species_id"].

(** The loop [for column in columns: result[column] = header.index(column)]. *)
Fixpoint parse_header_loop (header : list string) (cols : list string)
    (res : gmap string nat) : result (gmap string nat) :=
  match cols with
  | [] => Return res
  | column :: cols' =>
      (i <- index header column ;;
       parse_header_loop header cols' (<[column := i]> res))%result
  end.

(** [parse_header(f)]: the dict, and [f] one line further. *)
Definition parse_header (f : file) : result (gmap string nat) * file :=
  let (line, f) := readline f in
  ((header <- split (strip line) SEP ;;
    parse_header_loop header columns ∅)%result, f).

(** One turn of the loop of [create_table], up to the [INSERT]: the values
    taken from [line], in the order the code computes them. *)
Definition line_params (header_dict : gmap string nat) (line : string)
  : result params :=
  (line <- split (strip line) SEP ;;
   i <- dict_getitem header_dict "pokemon" ;;
   pokemon <- getitem line i ;;
   let pokemon := lower pokemon in
   i <- dict_getitem header_dict "species_id" ;;
   x <- getitem line i ;;
   species_id <- int x ;;
   i <- dict_getitem header_dict "height" ;;
   x <- getitem line i ;;
   height <- float x ;;
   i <- dict_getitem header_dict "weight" ;;
   x <- getitem line i ;;
   weight <- float x ;;
   i <- dict_getitem header_dict "type_1" ;;
   type_1 <- getitem line i ;;
   let type_1 := lower type_1 in
   i <- dict_getitem header_dict "type_2" ;;
   type_2 <- getitem line i ;;
   let type_2 := lower type_2 in
   i <- dict_getitem header_dict "url_image" ;;
   url_image <- getitem line i ;;
   let url_image := lower url_image in
   i <- dict_getitem header_dict "generation_id" ;;
   x <- getitem line i ;;
   generation_id <- int x ;;
   i <- dict_getitem header_dict "evolves_from_species_id" ;;
   evolves_from_species_id <- getitem line i ;; (* [str] of a [str] is itself *)
   let evolves_from_species_id := lower evolves_from_species_id in
   Return (Params pokemon species_id height weight type_1 type_2 url_image
             generation_id evolves_from_species_id))%result.

(** [create_table(csv_filename, con, cur)], where the file named
    [csv_filename] exists and has the content [csv]. *)
Definition create_table (csv : string) : M unit :=
  drop_table_if_exists ;;;
  create_table_pokemon ;;;
  let f := open csv in
  let (header_dict, f) := parse_header f in
  header_dict <- lift header_dict ;;
  for_each f (fun line =>
    p <- lift (line_params header_dict line) ;;
    insert_into_pokemon p) ;;;
  commit.

(** [table_exists(cur)] *)
Definition table_exists : M bool :=
  executed <- try_except
                (rs <- select id (fun _ => True) ;; ret (Some rs))
                OperationalError
                (ret None) ;;
  match executed with
  | None => ret false
  | Some rs => ret (negb (bool_decide (fetchone rs = None)))
  end.

(** The loop [for element in data: new_list.append(element[0])]. *)
Definition append_all {A} (data : list A) : list A :=
  foldl (fun new_list element => new_list ++ [element])%list [] data.

(** [get_pokemon_names(cur)] *)
Definition get_pokemon_names : M (list string) :=
  rs <- select name (fun _ => True) ;;
  let data := fetchall rs in
  ret (sorted (append_all data)).

(** [get_stats_by_name(name, cur)] *)
Definition get_stats_by_name (name : string) : M row :=
  rs <- select id (fun r => Sqlite.name r = name) ;;
  let data := fetchall rs in
  lift (getitem data 0).

(** [get_pokemon_ids(cur)] *)
Definition get_pokemon_ids : M (list Z) :=
  rs <- select species_id (fun _ => True) ;;
  let data := fetchall rs in
  ret (sorted_int (append_all data)).

(** [get_stats_by_id(species_id, cur)] *)
Definition get_stats_by_id (species_id : Z) : M row :=
  prepare ;;;
  bound <- lift (bind_integer species_id) ;;
  rs <- select id (fun r => Sqlite.species_id r = bound) ;;
  let data := fetchall rs in
  lift (getitem data 0).

(** [unique_and_sort(ell)] *)
Definition unique_and_sort (ell : list string) : list string :=
  sorted (set_iter (set_of ell)).

(** The nested loop of [get_pokemon_types]: every element of every pair is
    appended unless it is in the list already. *)
Definition collect_types (data : list (string * string)) : list string :=
  foldl (fun new_list types =>
           foldl (fun new_list element =>
                    if decide (element ∈ new_list) then new_list
                    else (new_list ++ [element])%list)
                 new_list [types.1; types.2])
        [] data.

(** [get_pokemon_types(cur)] *)
Definition get_pokemon_types : M (list string) :=
  rs <- select (fun r => (type_1 r, type_2 r)) (fun _ => True) ;;
  let data := fetchall rs in
  ret (unique_and_sort (collect_types data)).

(** [get_pokemon_by_type(pokemon_type, cur)] *)
Definition get_pokemon_by_type (pokemon_type : string) : M (list string) :=
  rs <- select name
          (fun r => type_1 r = pokemon_type \/ type_2 r = pokemon_type) ;;
  let data := fetchall rs in
  ret (unique_and_sort (append_all data)).

(** ** Vocabulary of the properties *)

(** The rows a database holds: none when the table is absent. *)
Definition stored_rows (db : database) : list row := default [] (pokemon db).

(** [m] leaves the database as it found it, whether it returns or raises. *)
Definition read_only {A} (m : M A) : Prop := forall db, (m db).2 = db.

Definition data_lines (csv : string) : list string := (readline (open csv)).2.

(** The row a data line becomes: its values, bound to the [INSERT]. *)
Definition line_row (header_dict : gmap string nat) (line : string)
  : result row :=
  (p <- line_params header_dict line ;; bind_params p)%result.

(** [x] is the field of a split line in the column named [column]. *)
Definition field (header_dict : gmap string nat) (fields : list string)
    (column x : string) : Prop :=
  exists i, header_dict !! column = Some i /\ fields !! i = Some x.

(** A line with nothing but white space. *)
Definition blank (line : string) : Prop := strip line = "".

#[local] Instance blank_dec line : Decision (blank line).
Proof. unfold blank. apply _. Defined.


(** A text is in lower case when [s.lower()] is [s]: no character of it
    has another lower-case form. *)
Definition lowered (s : string) : Prop := lower s = s.

Definition lowercase_row (r : row) : Prop :=
  lowered (name r) /\ lowered (type_1 r) /\ lowered (type_2 r) /\
  lowered (url_image r) /\ lowered (evolves_from_species_id r).

Definition lowercase_table (db : database) : Prop :=
  Forall lowercase_row (stored_rows db).

(** The operations the module offers. *)
Inductive operation : Type :=
| Load (csv : string)
| Exists
| ListNames
| ListSpeciesIds
| GetByName (n : string)
| GetById (i : Z)
| ListTypes
| ListByType (t : string).

(** The database an operation leaves behind. *)
Definition run (op : operation) (db : database) : database :=
  match op with
  | Load csv => (create_table csv db).2
  | Exists => (table_exists db).2
  | ListNames => (get_pokemon_names db).2
  | ListSpeciesIds => (get_pokemon_ids db).2
  | GetByName n => (get_stats_by_name n db).2
  | GetById i => (get_stats_by_id i db).2
  | ListTypes => (get_pokemon_types db).2
  | ListByType t => (get_pokemon_by_type t db).2
  end.

Definition run_all (ops : list operation) (db : database) : database :=
  foldl (fun db op => run op db) db ops.

(** ** Concrete files and databases *)

(** The file of the scenario: the name column comes second. *)
Definition bulbasaur_csv : string :=
  "species_id,pokemon,height,weight,type_1,type_2,url_image,generation_id,evolves_from_species_id
1,Bulbasaur,0.7,6.9,Grass,Poison,http://x,1,".

(** The same file with a line end after the data row. *)
Definition bulbasaur_csv_newline : string :=
  bulbasaur_csv ++ String "010" "".

(** The binary64 numbers written [0.7] and [6.9]:
    [0x1.6666666666666p-1] and [0x1.b99999999999ap+2]. *)
Definition float_0_7 : spec_float := S754_finite false 6305039478318694 (-53).
Definition float_6_9 : spec_float := S754_finite false 7768709357214106 (-50).

(** [f] is a positive binary64 number, with a negative exponent, that
    differs from the fraction [num / den] by at most half a unit in its
    last place. *)
Definition within_half_ulp (num den : Z) (f : spec_float) : Prop :=
  match f with
  | S754_finite false m e =>
      valid_binary 53 1024 f = true /\
      (e < 0)%Z /\ (0 < den)%Z /\
      (2 * Z.abs (num * 2 ^ (- e) - den * Z.pos m) <= den)%Z
  | _ => False
  end.

Definition bulbasaur : row :=
  Row "bulbasaur" 1 (Some float_0_7) (Some float_6_9) "grass" "poison"
      "http://x" 1 "".

(** A file with the columns in another order, one column more than needed,
    mixed case, a repeated name and an empty second type. *)
Definition sample_csv : string :=
  "pokemon,extra,species_id,height,weight,type_1,type_2,url_image,generation_id,evolves_from_species_id
Pikachu,x,25,0.4,6.0,Electric,,http://p,1,172
BULBASAUR,y,1,0.7,6.9,Grass,Poison,http://b,1,
Pikachu,z,25,0.4,6.0,Electric,,http://q,1,172
".

(** The binary64 numbers written [0.4] and [6.0]. *)
Definition float_0_4 : spec_float := S754_finite false 7205759403792794 (-54).
Definition float_6_0 : spec_float := S754_finite false 6755399441055744 (-50).

(** The database that loading [sample_csv] gives. *)
Definition sample_db : database :=
  Database (Some [
    Row "pikachu" 25 (Some float_0_4) (Some float_6_0) "electric" ""
        "http://p" 1 "172";
    Row "bulbasaur" 1 (Some float_0_7) (Some float_6_9) "grass" "poison"
        "http://b" 1 "";
    Row "pikachu" 25 (Some float_0_4) (Some float_6_0) "electric" ""
        "http://q" 1 "172"]).

(** A file whose header has no [weight] column. *)
Definition no_weight_csv : string :=
  "pokemon,species_id,height,type_1,type_2,url_image,generation_id,evolves_from_species_id
Pikachu,25,0.4,Electric,,http://p,1,172
".

(** A file with a header and no data line. *)
Definition header_only_csv : string :=
  "pokemon,species_id,height,weight,type_1,type_2,url_image,generation_id,evolves_from_species_id
".


Definition pikachu : row :=
  Row "pikachu" 25 (Some float_0_4) (Some float_6_0) "electric" ""
      "http://p" 1 "172".

(** A file whose second data line has a species id of 2 ^ 63. *)
Definition overflow_csv : string :=
  "pokemon,species_id,height,weight,type_1,type_2,url_image,generation_id,evolves_from_species_id
Pikachu,25,0.4,6.0,Electric,,http://p,1,172
Mew,9223372036854775808,0.4,4.0,Psychic,,http://m,1,
".


(** A file with letters beyond ASCII in its names and types: accented
    capitals, and a Greek name that ends with a capital sigma. *)
Definition accents_csv : string :=
  "pokemon,species_id,height,weight,type_1,type_2,url_image,generation_id,evolves_from_species_id
FLABÉBÉ,669,0.4,6.0,Fairy,,HTTP://F,6,
ΟΔΥΣΣΕΥΣ,1000,0.4,6.0,ΉΡΩΣ,,http://o,9,669
".

(** The database that loading [accents_csv] gives. *)
Definition accents_db : database :=
  Database (Some [
    Row "flabébé" 669 (Some float_0_4) (Some float_6_0) "fairy" ""
        "http://f" 6 "";
    Row "οδυσσευς" 1000 (Some float_0_4) (Some float_6_0) "ήρως" ""
        "http://o" 9 "669"]).

(** A file whose header line ends with a no-break space, U+00A0, before
    its line end. *)
Definition nbsp_header_csv : string :=
  "pokemon,species_id,height,weight,type_1,type_2,url_image,generation_id,evolves_from_species_id"
  ++ String "194" (String "160" (String "010"
  "Pikachu,25,0.4,6.0,Electric,,http://p,1,172")).

(** The dict of the header of the scenario. *)
Definition bulbasaur_header_dict : gmap string nat :=
  list_to_map
    [("species_id", 0); ("pokemon", 1); ("height", 2); ("weight", 3);
     ("type_1", 4); ("type_2", 5); ("url_image", 6); ("generation_id", 7);
     ("evolves_from_species_id", 8)].

(** The dict of a header with the nine columns in the order of
    [columns]. *)
Definition plain_header_dict : gmap string nat :=
  list_to_map
    [("pokemon", 0); ("species_id", 1); ("height", 2); ("weight", 3);
     ("type_1", 4); ("type_2", 5); ("url_image", 6); ("generation_id", 7);
     ("evolves_from_species_id", 8)].

(** * Properties *)

Local Open Scope list_scope.

(** ** Code that only reads *)

Lemma read_only_ret {A} (a : A) : read_only (ret a).
Proof. by intros db. Qed.

Lemma read_only_lift {A} (r : result A) : read_only (lift r).
Proof. by intros db. Qed.

Lemma read_only_bind {A B} (m : M A) (k : A -> M B) :
  read_only m -> (forall a, read_only (k a)) -> read_only (bind m k).
Proof.
  intros Hm Hk db. unfold bind. specialize (Hm db).
  destruct (m db) as [[e|a] db']; simpl in *; subst; [done|apply Hk].
Qed.

Lemma read_only_try_except {A} (m : M A) e (h : M A) :
  read_only m -> read_only h -> read_only (try_except m e h).
Proof.
  intros Hm Hh db. unfold try_except. specialize (Hm db).
  destruct (m db) as [[e'|a] db']; simpl in *; subst; [|done].
  case_decide; [apply Hh|done].
Qed.

Lemma read_only_select {A} (cols : row -> A) (cond : row -> Prop)
    `{!forall r, Decision (cond r)} :
  read_only (select cols cond).
Proof. intros db. unfold select. by destruct (pokemon db). Qed.

Lemma read_only_prepare : read_only prepare.
Proof. intros db. unfold prepare. by destruct (pokemon db). Qed.

Ltac solve_read_only :=
  repeat first
    [ apply read_only_select | apply read_only_prepare
    | apply read_only_ret | apply read_only_lift
    | apply read_only_try_except
    | apply read_only_bind; [|intros ?]
    | match goal with |- read_only (match ?x with _ => _ end) => destruct x end ].

Lemma table_exists_read_only : read_only table_exists.
Proof. unfold table_exists. solve_read_only. Qed.

Lemma get_pokemon_names_read_only : read_only get_pokemon_names.
Proof. unfold get_pokemon_names. solve_read_only. Qed.

Lemma get_pokemon_ids_read_only : read_only get_pokemon_ids.
Proof. unfold get_pokemon_ids. solve_read_only. Qed.

Lemma get_stats_by_name_read_only n : read_only (get_stats_by_name n).
Proof. unfold get_stats_by_name. solve_read_only. Qed.

Lemma get_stats_by_id_read_only i : read_only (get_stats_by_id i).
Proof. unfold get_stats_by_id. solve_read_only. Qed.

Lemma get_pokemon_types_read_only : read_only get_pokemon_types.
Proof. unfold get_pokemon_types. solve_read_only. Qed.

Lemma get_pokemon_by_type_read_only t : read_only (get_pokemon_by_type t).
Proof. unfold get_pokemon_by_type. solve_read_only. Qed.

(** C10. Every read operation ([table_exists], [get_pokemon_names],
    [get_pokemon_ids], [get_stats_by_name], [get_stats_by_id],
    [get_pokemon_types], [get_pokemon_by_type]) leaves the database it ran
    on unchanged, for every database and every argument, whether the call
    returns or raises. *)
Theorem read_operations_frame (db : database) :
  (table_exists db).2 = db /\
  (get_pokemon_names db).2 = db /\
  (get_pokemon_ids db).2 = db /\
  (forall n, (get_stats_by_name n db).2 = db) /\
  (forall i, (get_stats_by_id i db).2 = db) /\
  (get_pokemon_types db).2 = db /\
  (forall t, (get_pokemon_by_type t db).2 = db).
Proof.
  repeat split; intros.
  - apply table_exists_read_only.
  - apply get_pokemon_names_read_only.
  - apply get_pokemon_ids_read_only.
  - apply get_stats_by_name_read_only.
  - apply get_stats_by_id_read_only.
  - apply get_pokemon_types_read_only.
  - apply get_pokemon_by_type_read_only.
Qed.

(** ** What the statements compute *)

Lemma filter_True {A} (l : list A) : filter (fun _ => True) l = l.
Proof. induction l as [|x l IH]; [done|]. rewrite filter_cons_True; [|done]. by f_equal. Qed.

Lemma filter_all {A} (P : A -> Prop) `{!forall x, Decision (P x)} (l : list A) :
  Forall P l -> filter P l = l.
Proof.
  induction 1 as [|x l Hx _ IH]; [done|].
  rewrite filter_cons_True; [|done]. by f_equal.
Qed.

Lemma append_all_id {A} (data : list A) : append_all data = data.
Proof.
  unfold append_all.
  enough (forall acc, foldl (fun new_list element => new_list ++ [element]) acc data
                      = acc ++ data) as H by apply (H []).
  induction data as [|x data IH]; intros acc; simpl.
  - by rewrite app_nil_r.
  - rewrite IH, <- app_assoc. done.
Qed.

(** ** Sorting and deduplication *)

Lemma sorted_Sorted l : Sorted String.le (sorted l).
Proof. apply (Sorted_merge_sort String.le). Qed.

Lemma sorted_Permutation l : sorted l ≡ₚ l.
Proof. apply merge_sort_Permutation. Qed.

Lemma unique_and_sort_Sorted ell : Sorted String.le (unique_and_sort ell).
Proof. apply sorted_Sorted. Qed.

Lemma unique_and_sort_NoDup ell : NoDup (unique_and_sort ell).
Proof.
  unfold unique_and_sort. rewrite sorted_Permutation.
  apply NoDup_elements.
Qed.

Lemma elem_of_unique_and_sort ell x : x ∈ unique_and_sort ell <-> x ∈ ell.
Proof.
  unfold unique_and_sort, set_iter, set_of.
  rewrite sorted_Permutation, elem_of_elements, elem_of_list_to_set. done.
Qed.

(** A sorted list without repetition is determined by its elements. *)
Lemma sorted_nodup_unique (l1 l2 : list string) :
  Sorted String.le l1 -> NoDup l1 ->
  Sorted String.le l2 -> NoDup l2 ->
  (forall x, x ∈ l1 <-> x ∈ l2) -> l1 = l2.
Proof.
  intros S1 N1 S2 N2 H.
  apply (Sorted_unique String.le); [done..|].
  by apply NoDup_Permutation.
Qed.

Lemma elem_of_collect_types data t :
  t ∈ collect_types data <-> exists p, p ∈ data /\ (p.1 = t \/ p.2 = t).
Proof.
  unfold collect_types.
  enough (forall acc,
    t ∈ foldl (fun new_list types =>
           foldl (fun new_list element =>
                    if decide (element ∈ new_list) then new_list
                    else (new_list ++ [element])%list)
                 new_list [types.1; types.2]) acc data
    <-> t ∈ acc \/ exists p, p ∈ data /\ (p.1 = t \/ p.2 = t)) as H.
  { rewrite H. rewrite elem_of_nil. naive_solver. }
  induction data as [|p data IH]; intros acc; simpl.
  - setoid_rewrite elem_of_nil. naive_solver.
  - rewrite IH. setoid_rewrite elem_of_cons.
    repeat case_decide;
      rewrite ?elem_of_app, ?list_elem_of_singleton in *; naive_solver.
Qed.

(** ** The read operations *)

(** C3. [table_exists] never raises.  It returns [True] exactly when the
    table [pokemon] exists and holds at least one row; on a database
    without the table, such as a new one that was never loaded, it returns
    [False]. *)
Theorem table_exists_spec :
  (forall db, exists b,
      table_exists db = (Return b, db) /\
      (b = true <-> exists rows, pokemon db = Some rows /\ rows <> [])) /\
  (forall db, pokemon db = None -> table_exists db = (Return false, db)) /\
  table_exists (Database None) = (Return false, Database None).
Proof.
  split; [|split]; [| |done].
  - intros [[[|r rows]|]].
    + exists false. split; [done|]. split; [done|]. by intros (? & [= <-] & ?).
    + exists true. split; [done|]. split; [|done]. intros _. by eexists.
    + exists false. split; [done|]. split; [done|]. by intros (? & ? & ?).
  - by intros [o] [= ->].
Qed.

(** C2, as amended.  On a database whose table exists:
    [get_stats_by_name] raises the [IndexError] of [data[0]] when no row
    has the name asked for, and returns a row of the table with exactly
    that name, the first one in table order, when there is one.  On a
    database without the table it raises [sqlite3.OperationalError]. *)
Theorem get_stats_by_name_spec (db : database) (n : string) :
  match pokemon db with
  | Some rows =>
      ((forall r, r ∈ rows -> name r <> n) ->
       get_stats_by_name n db = (Raise IndexError, db)) /\
      ((exists r, r ∈ rows /\ name r = n) ->
       exists r, get_stats_by_name n db = (Return r, db) /\
                 r ∈ rows /\ name r = n /\
                 head (filter (fun r => name r = n) rows) = Some r)
  | None => get_stats_by_name n db = (Raise OperationalError, db)
  end.
Proof.
  destruct db as [[rows|]]; simpl; [|done].
  unfold get_stats_by_name, bind, select, fetchall, lift, getitem; simpl.
  split.
  - intros Hno.
    destruct (filter (fun r => name r = n) rows) as [|r l] eqn:E; [done|].
    assert (r ∈ filter (fun r => name r = n) rows) as Hr
      by (rewrite E; left).
    apply list_elem_of_filter in Hr as [? ?]. by destruct (Hno r).
  - intros (r0 & Hin & Hn).
    destruct (filter (fun r => name r = n) rows) as [|r l] eqn:E.
    + assert (r0 ∈ filter (fun r => name r = n) rows) as Hr
        by (by apply list_elem_of_filter).
      rewrite E in Hr. by apply elem_of_nil in Hr.
    + assert (r ∈ filter (fun r => name r = n) rows) as Hr
        by (rewrite E; left).
      apply list_elem_of_filter in Hr as [? ?]. by exists r.
Qed.

(** C2, the claim as stated fails: on the database without a table no
    stored row has the name ["bulbasaur"], and the call raises
    [OperationalError], not the [IndexError] of an absent name. *)
Lemma get_stats_by_name_no_table_not_IndexError :
  (forall r, r ∈ stored_rows (Database None) -> name r <> "bulbasaur") /\
  (get_stats_by_name "bulbasaur" (Database None)).1 = Raise OperationalError /\
  (get_stats_by_name "bulbasaur" (Database None)).1 <> Raise IndexError.
Proof.
  split; [|split]; [|done|done].
  intros r Hr. by apply elem_of_nil in Hr.
Qed.

(** C5, as amended.  On a database whose table exists,
    [get_pokemon_types] returns the [type_1] and [type_2] values of the
    rows as a set, in ascending order: the list is sorted and without
    repetition, each of its elements is the [type_1] or the [type_2] of a
    row, each [type_1] and [type_2] of a row (the empty string too) is in
    it, and it is the only list with these properties.  On a database
    without the table the call raises [sqlite3.OperationalError]. *)
Theorem get_pokemon_types_spec (db : database) :
  match pokemon db with
  | Some rows =>
      exists l,
        get_pokemon_types db = (Return l, db) /\
        Sorted String.le l /\ NoDup l /\
        (forall t, t ∈ l <-> exists r, r ∈ rows /\ (type_1 r = t \/ type_2 r = t)) /\
        (forall l',
            Sorted String.le l' -> NoDup l' ->
            (forall t, t ∈ l' <->
                       exists r, r ∈ rows /\ (type_1 r = t \/ type_2 r = t)) ->
            l' = l)
  | None => get_pokemon_types db = (Raise OperationalError, db)
  end.
Proof.
  destruct db as [[rows|]]; simpl; [|done].
  unfold get_pokemon_types, bind, select, fetchall, ret; simpl.
  rewrite filter_True.
  set (l := unique_and_sort _).
  assert (forall t, t ∈ l <->
                    exists r, r ∈ rows /\ (type_1 r = t \/ type_2 r = t)) as Hmem.
  { intros t. unfold l. rewrite elem_of_unique_and_sort, elem_of_collect_types.
    split.
    - intros ([t1 t2] & Hp & Ht). apply list_elem_of_fmap in Hp as (r & [= -> ->] & Hr).
      by exists r.
    - intros (r & Hr & Ht). exists (type_1 r, type_2 r). split; [|done].
      apply list_elem_of_fmap. by exists r. }
  exists l. split; [done|]. split; [apply unique_and_sort_Sorted|].
  split; [apply unique_and_sort_NoDup|]. split; [done|].
  intros l' S' N' H'. apply sorted_nodup_unique; try done.
  - apply unique_and_sort_Sorted.
  - apply unique_and_sort_NoDup.
  - intros t. by rewrite H', Hmem.
Qed.

(** C5, the claim as stated fails: on the database without a table the
    call returns no list at all, it raises [OperationalError]. *)
Lemma get_pokemon_types_no_table_raises :
  (get_pokemon_types (Database None)).1 = Raise OperationalError /\
  ~ exists l, (get_pokemon_types (Database None)).1 = Return l.
Proof. split; [done|]. by intros [l Hl]. Qed.

(** C6, as amended.  On a database whose table exists,
    [get_pokemon_by_type t] returns the names of the rows whose [type_1]
    or [type_2] is [t], as a set, in ascending order: the list is sorted
    and without repetition, its elements are exactly those names, it is
    the only such list, and it is empty when no row has the type.  On a
    database without the table the call raises
    [sqlite3.OperationalError]. *)
Theorem get_pokemon_by_type_spec (db : database) (t : string) :
  match pokemon db with
  | Some rows =>
      exists l,
        get_pokemon_by_type t db = (Return l, db) /\
        Sorted String.le l /\ NoDup l /\
        (forall n, n ∈ l <->
                   exists r, r ∈ rows /\ name r = n /\
                             (type_1 r = t \/ type_2 r = t)) /\
        (forall l',
            Sorted String.le l' -> NoDup l' ->
            (forall n, n ∈ l' <->
                       exists r, r ∈ rows /\ name r = n /\
                                 (type_1 r = t \/ type_2 r = t)) ->
            l' = l) /\
        ((forall r, r ∈ rows -> type_1 r <> t /\ type_2 r <> t) -> l = [])
  | None => get_pokemon_by_type t db = (Raise OperationalError, db)
  end.
Proof.
  destruct db as [[rows|]]; simpl; [|done].
  unfold get_pokemon_by_type, bind, select, fetchall, ret; simpl.
  rewrite append_all_id.
  set (l := unique_and_sort _).
  assert (forall n, n ∈ l <->
                    exists r, r ∈ rows /\ name r = n /\
                              (type_1 r = t \/ type_2 r = t)) as Hmem.
  { intros n. unfold l. rewrite elem_of_unique_and_sort, list_elem_of_fmap.
    setoid_rewrite list_elem_of_filter. naive_solver. }
  exists l. split; [done|]. split; [apply unique_and_sort_Sorted|].
  split; [apply unique_and_sort_NoDup|]. split; [done|]. split.
  - intros l' S' N' H'. apply sorted_nodup_unique; try done.
    + apply unique_and_sort_Sorted.
    + apply unique_and_sort_NoDup.
    + intros n. by rewrite H', Hmem.
  - intros Hno. apply elem_of_nil_inv. intros n Hn.
    apply Hmem in Hn as (r & Hr & _ & Ht). destruct (Hno r Hr). by destruct Ht.
Qed.

(** C6, the claim as stated fails: on the database without a table no row
    has the type ["fire"], and the call raises [OperationalError] where
    the claim has it return the empty list. *)
Lemma get_pokemon_by_type_no_table_raises :
  (forall r, r ∈ stored_rows (Database None) ->
             type_1 r <> "fire" /\ type_2 r <> "fire") /\
  (get_pokemon_by_type "fire" (Database None)).1 = Raise OperationalError /\
  (get_pokemon_by_type "fire" (Database None)).1 <> Return [].
Proof.
  split; [|split]; [|done|done].
  intros r Hr. by apply elem_of_nil in Hr.
Qed.

(** ** Loading *)

(** [create_table] starts from the empty table whatever the database
    was. *)
Lemma create_table_unfold csv db :
  create_table csv db =
  match parse_header (open csv) with
  | (Raise e, _) => (Raise e, Database (Some []))
  | (Return header_dict, f) =>
      match for_each f (fun line =>
              p <- lift (line_params header_dict line) ;;
              insert_into_pokemon p) (Database (Some [])) with
      | (Raise e, db') => (Raise e, db')
      | (Return _, db') => (Return tt, db')
      end
  end.
Proof.
  unfold create_table, bind at 1 2; simpl.
  destruct (parse_header (open csv)) as [[e|hd] f]; [done|].
  unfold bind at 1, lift at 1; simpl. unfold bind at 1.
  by destruct (for_each _ _ _) as [[e|[]] db'].
Qed.

Lemma create_table_any_database csv db db' :
  create_table csv db = create_table csv db'.
Proof. by rewrite !create_table_unfold. Qed.

(** The loop over the data lines appends one row per line, in order,
    until a line fails. *)
Lemma for_each_insert header_dict lines : forall rows0 res db',
  for_each lines (fun line =>
      p <- lift (line_params header_dict line) ;;
      insert_into_pokemon p) (Database (Some rows0)) = (res, db') ->
  exists rows,
    db' = Database (Some (rows0 ++ rows)) /\
    Forall (fun r => exists line,
                line ∈ lines /\ line_row header_dict line = Return r) rows /\
    (res = Return tt ->
     Forall2 (fun line r => line_row header_dict line = Return r) lines rows).
Proof.
  induction lines as [|line lines IH]; intros rows0 res db'; simpl.
  - intros [= <- <-]. exists []. rewrite app_nil_r. by repeat split; constructor.
  - unfold line_row in *. unfold bind at 1 2, lift.
    destruct (line_params header_dict line) as [e|p] eqn:Hp; simpl.
    { intros [= <- <-]. exists []. rewrite app_nil_r.
      split; [done|]. split; [constructor|intros [=]]. }
    unfold insert_into_pokemon; simpl.
    destruct (bind_params p) as [e|r] eqn:Hr; simpl.
    { intros [= <- <-]. exists []. rewrite app_nil_r.
      split; [done|]. split; [constructor|intros [=]]. }
    intros Hrun. destruct (IH _ _ _ Hrun) as (rows & -> & Hall & Hok).
    exists (r :: rows). rewrite <- app_assoc. split; [done|]. split.
    + constructor.
      * exists line. split; [left|]. by rewrite Hp.
      * eapply Forall_impl; [exact Hall|]. intros r' (l' & ? & ?).
        exists l'. split; [by right|done].
    + intros Hret. constructor; [by rewrite Hp|by apply Hok].
Qed.

(** What a data line has to be for the loop to get a row out of it. *)
Ltac rbind_inv H :=
  repeat match type of H with
         | rbind ?x _ = Return _ =>
             let E := fresh "E" in
             destruct x eqn:E; simpl in H; [discriminate H|]
         end.

Lemma dict_getitem_Return d k i : dict_getitem d k = Return i -> d !! k = Some i.
Proof. unfold dict_getitem. destruct (d !! k); by intros [=->]. Qed.

Lemma getitem_Return {A} (l : list A) i x : getitem l i = Return x -> l !! i = Some x.
Proof. unfold getitem. destruct (l !! i); by intros [=->]. Qed.

Lemma line_params_Return header_dict line p :
  line_params header_dict line = Return p ->
  exists fields,
    split (strip line) SEP = Return fields /\
    (exists x, field header_dict fields "pokemon" x /\ p_pokemon p = lower x) /\
    (exists x, field header_dict fields "species_id" x /\
               int x = Return (p_species_id p)) /\
    (exists x, field header_dict fields "height" x /\
               float x = Return (p_height p)) /\
    (exists x, field header_dict fields "weight" x /\
               float x = Return (p_weight p)) /\
    (exists x, field header_dict fields "type_1" x /\ p_type_1 p = lower x) /\
    (exists x, field header_dict fields "type_2" x /\ p_type_2 p = lower x) /\
    (exists x, field header_dict fields "url_image" x /\
               p_url_image p = lower x) /\
    (exists x, field header_dict fields "generation_id" x /\
               int x = Return (p_generation_id p)) /\
    (exists x, field header_dict fields "evolves_from_species_id" x /\
               p_evolves_from_species_id p = lower x).
Proof.
  unfold line_params. intros H. rbind_inv H. injection H as <-. simpl.
  repeat match goal with
         | E : dict_getitem _ _ = Return _ |- _ => apply dict_getitem_Return in E
         | E : getitem _ _ = Return _ |- _ => apply getitem_Return in E
         end.
  eexists. split; [done|]. unfold field. repeat split; eauto.
Qed.

Lemma bind_params_Return p r :
  bind_params p = Return r ->
  name r = p_pokemon p /\ type_1 r = p_type_1 p /\ type_2 r = p_type_2 p /\
  url_image r = p_url_image p /\
  evolves_from_species_id r = p_evolves_from_species_id p /\
  species_id r = p_species_id p /\ generation_id r = p_generation_id p /\
  height r = bind_real (p_height p) /\ weight r = bind_real (p_weight p) /\
  (- 2 ^ 63 <= species_id r < 2 ^ 63)%Z /\
  (- 2 ^ 63 <= generation_id r < 2 ^ 63)%Z.
Proof.
  unfold bind_params, bind_integer. intros H.
  repeat case_decide; simpl in H; try discriminate H.
  injection H as <-. simpl. by repeat (split; [done|]).
Qed.

(** ** UTF-8 *)

Lemma code_byte n : (n < 256)%N -> code (byte n) = n.
Proof. apply N_ascii_embedding. Qed.

Lemma code_bounded b : (code b < 256)%N.
Proof. apply N_ascii_bounded. Qed.

(** [lia] is to read the quotients and remainders of the encoding. *)
#[local] Ltac Zify.zify_post_hook ::= Z.to_euclidean_division_equations.

Ltac arith :=
  unfold continuation, six_bits, scalar in *;
  repeat match goal with
    | H : negb _ = true |- _ => apply negb_true_iff in H
    | H : negb _ = false |- _ => apply negb_false_iff in H
    | H : _ && _ = true |- _ => apply andb_true_iff in H as [? ?]
    | H : _ || _ = false |- _ => apply orb_false_iff in H as [? ?]
    | H : _ && _ = false |- _ => apply andb_false_iff in H as [?|?]
    | H : _ || _ = true |- _ => apply orb_true_iff in H as [?|?]
    | H : (_ <? _)%N = true |- _ => apply N.ltb_lt in H
    | H : (_ <? _)%N = false |- _ => apply N.ltb_ge in H
    | H : (_ <=? _)%N = true |- _ => apply N.leb_le in H
    | H : (_ <=? _)%N = false |- _ => apply N.leb_gt in H
    | H : (_ =? _)%N = true |- _ => apply N.eqb_eq in H
    | H : (_ =? _)%N = false |- _ => apply N.eqb_neq in H
    end;
  repeat match goal with
    | |- context [code ?b] =>
        lazymatch goal with
        | _ : (code b < 256)%N |- _ => fail
        | _ => pose proof (code_bounded b)
        end
    end;
  try lia.

Lemma scalar_spec c :
  scalar c = true <-> (c < 55296 \/ 57343 < c < 1114112)%N.
Proof.
  unfold scalar.
  rewrite orb_true_iff, andb_true_iff, !N.ltb_lt. tauto.
Qed.

(** The code points of a text are scalar values. *)
Lemma decode_scalar s l :
  decode s = Some l -> Forall (fun c => scalar c = true) l.
Proof.
  revert l. functional induction (decode s); intros l Hl;
    try discriminate Hl.
  - injection Hl as <-. constructor.
  - destruct (decode s1) as [l1|]; [|discriminate Hl].
    injection Hl as <-. constructor; [|by apply IHo].
    apply scalar_spec. arith.
  - destruct (decode s2) as [l2|]; [|discriminate Hl].
    injection Hl as <-. constructor; [|by apply IHo].
    apply scalar_spec. arith.
  - destruct (decode s3) as [l3|]; [|discriminate Hl].
    injection Hl as <-. constructor; [|by apply IHo].
    apply scalar_spec. arith.
  - destruct (decode s4) as [l4|]; [|discriminate Hl].
    injection Hl as <-. constructor; [|by apply IHo].
    apply scalar_spec. arith.
Qed.

Lemma decode_String b0 s1 :
  decode (String b0 s1) =
  let n0 := code b0 in
  if (n0 <? 128)%N then cons n0 <$> decode s1
  else if (n0 <? 194)%N then None
  else if (n0 <? 224)%N then
    match s1 with
    | String b1 s2 =>
        if continuation b1
        then cons ((n0 - 192) * 64 + six_bits b1)%N <$> decode s2
        else None
    | _ => None
    end
  else if (n0 <? 240)%N then
    match s1 with
    | String b1 (String b2 s3) =>
        let c := ((n0 - 224) * 4096 + six_bits b1 * 64 + six_bits b2)%N in
        if continuation b1 && continuation b2 && (2048 <=? c)%N
           && negb ((55296 <=? c) && (c <=? 57343))%N
        then cons c <$> decode s3
        else None
    | _ => None
    end
  else if (n0 <? 245)%N then
    match s1 with
    | String b1 (String b2 (String b3 s4)) =>
        let c := ((n0 - 240) * 262144 + six_bits b1 * 4096
                  + six_bits b2 * 64 + six_bits b3)%N in
        if continuation b1 && continuation b2 && continuation b3
           && (65536 <=? c)%N && (c <=? 1114111)%N
        then cons c <$> decode s4
        else None
    | _ => None
    end
  else None.
Proof. reflexivity. Qed.

Lemma ltb_true (a b : N) : (a < b)%N -> (a <? b)%N = true.
Proof. apply N.ltb_lt. Qed.

Lemma ltb_false (a b : N) : (b <= a)%N -> (a <? b)%N = false.
Proof. apply N.ltb_ge. Qed.

Lemma leb_true (a b : N) : (a <= b)%N -> (a <=? b)%N = true.
Proof. apply N.leb_le. Qed.

Lemma leb_false (a b : N) : (b < a)%N -> (a <=? b)%N = false.
Proof. apply N.leb_gt. Qed.

(** Settles the comparisons of the goal that arithmetic decides. *)
Ltac compare :=
  repeat match goal with
    | |- context [(?a <? ?b)%N] =>
        first [ rewrite (ltb_true a b) by arith
              | rewrite (ltb_false a b) by arith ]
    | |- context [(?a <=? ?b)%N] =>
        first [ rewrite (leb_true a b) by arith
              | rewrite (leb_false a b) by arith ]
    end.

Lemma append_String a s t : (String a s ++ t)%string = String a (s ++ t).
Proof. reflexivity. Qed.

Lemma append_empty t : ("" ++ t)%string = t.
Proof. reflexivity. Qed.

(** Decoding undoes encoding. *)
Lemma decode_encode_char c s :
  scalar c = true -> decode (encode_char c ++ s) = cons c <$> decode s.
Proof.
  intros Hc. apply scalar_spec in Hc. unfold encode_char.
  destruct Hc as [Hc|Hc];
  (destruct (N.ltb_spec c 128); [|destruct (N.ltb_spec c 2048);
     [|destruct (N.ltb_spec c 65536)]]);
    rewrite !append_String, append_empty, decode_String; cbv zeta;
    unfold continuation, six_bits;
    rewrite ?code_byte by arith; compare; cbn [andb negb];
    do 2 f_equal; arith.
Qed.

Lemma decode_encode l :
  Forall (fun c => scalar c = true) l -> decode (encode l) = Some l.
Proof.
  induction 1 as [|c l Hc _ IH]; [done|].
  cbn [encode]. by rewrite decode_encode_char, IH.
Qed.

(** ** [strip] goes to the end *)

Lemma drop_prefix_length p : forall s s',
  drop_prefix p s = Some s' ->
  String.length s = String.length p + String.length s'.
Proof.
  induction p as [|a p IH]; intros [|b s] s'; simpl; try done.
  - by intros [= <-].
  - by intros [= <-].
  - destruct (Ascii.eqb a b); [|done]. intros H. by rewrite (IH _ _ H).
Qed.

Lemma drop_any_length patterns s s' :
  Forall (fun p => p <> "") patterns ->
  drop_any patterns s = Some s' -> String.length s' < String.length s.
Proof.
  induction 1 as [|p patterns Hp _ IH]; simpl; [done|].
  destruct (drop_prefix p s) as [s0|] eqn:E; [|done].
  intros [= <-]. apply drop_prefix_length in E.
  destruct p; [done|]. simpl in E. lia.
Qed.

(** The fuel of [strip_front] is enough: what it returns starts with none
    of the patterns. *)
Lemma strip_front_done patterns fuel : forall s,
  Forall (fun p => p <> "") patterns ->
  String.length s <= fuel ->
  drop_any patterns (strip_front patterns fuel s) = None.
Proof.
  induction fuel as [|fuel IH]; intros s Hp Hlen; simpl.
  - destruct s; [|simpl in Hlen; lia].
    clear Hlen. induction Hp as [|p patterns Hp _ IHp]; simpl; [done|].
    by destruct p.
  - destruct (drop_any patterns s) as [s'|] eqn:E; [|done].
    apply IH; [done|]. apply drop_any_length in E; [lia|done].
Qed.

Lemma space_codes_nonempty : Forall (fun p => p <> "") space_codes.
Proof. apply (bool_decide_unpack _). by vm_compute. Qed.

Lemma rev_app_length s1 : forall s2,
  String.length (String.rev_app s1 s2) = String.length s1 + String.length s2.
Proof.
  induction s1 as [|a s1 IH]; intros s2; simpl; [done|].
  rewrite IH. simpl. lia.
Qed.

Lemma rev_app_rev_app s1 : forall s2 s3,
  String.rev_app (String.rev_app s1 s2) s3 = String.rev_app s2 (s1 ++ s3)%string.
Proof.
  induction s1 as [|a s1 IH]; intros s2 s3; simpl; [done|].
  by rewrite IH.
Qed.

Lemma append_empty_r s : (s ++ "")%string = s.
Proof. induction s as [|a s IH]; [done|]. by rewrite append_String, IH. Qed.

Lemma rev_rev s : String.rev (String.rev s) = s.
Proof.
  unfold String.rev. rewrite rev_app_rev_app. simpl. apply append_empty_r.
Qed.

Lemma length_rev s : String.length (String.rev s) = String.length s.
Proof. unfold String.rev. rewrite rev_app_length. simpl. lia. Qed.

(** Nothing is left to strip in a stripped text: no white-space character
    is in front of [lstrip s], nor at the end of [rstrip s], which is in
    front when the text is read backwards. *)
Lemma lstrip_done s : drop_any space_codes (lstrip s) = None.
Proof. by apply strip_front_done; [apply space_codes_nonempty|]. Qed.

Lemma rstrip_done s :
  drop_any (String.rev <$> space_codes) (String.rev (rstrip s)) = None.
Proof.
  unfold rstrip. rewrite rev_rev.
  apply strip_front_done.
  - apply (bool_decide_unpack _). by vm_compute.
  - by rewrite length_rev.
Qed.

(** ** Lower case *)


Lemma lower_char_idemp c : lower_char (lower_char c) = lower_char c.
Proof. by destruct c as [[] [] [] [] [] [] [] []]. Qed.

Lemma lower_char_high c : (code c <? 128)%N = false -> lower_char c = c.
Proof. by destruct c as [[] [] [] [] [] [] [] []]. Qed.

Lemma lower_char_low c :
  (code (lower_char c) <? 128)%N = (code c <? 128)%N.
Proof. by destruct c as [[] [] [] [] [] [] [] []]. Qed.

Lemma continuation_lower_char c :
  continuation (lower_char c) = continuation c.
Proof. by destruct c as [[] [] [] [] [] [] [] []]. Qed.

Lemma lower_char_continuation c : continuation c = true -> lower_char c = c.
Proof. by destruct c as [[] [] [] [] [] [] [] []]. Qed.

Lemma ascii_lower_idemp s : ascii_lower (ascii_lower s) = ascii_lower s.
Proof.
  induction s as [|c s IH]; simpl; [done|].
  by rewrite lower_char_idemp, IH.
Qed.


(** Bytes that are no text are no text after their ASCII letters are
    lowered. *)
Lemma decode_ascii_lower s : decode s = None -> decode (ascii_lower s) = None.
Proof.
  functional induction (decode s); intros Hnone;
    try discriminate Hnone;
    cbn [ascii_lower]; rewrite decode_String; cbv zeta;
    rewrite ?lower_char_low;
    repeat match goal with
      | H : (code ?b <? 128)%N = false |- _ =>
          rewrite (lower_char_high b H)
      end;
    repeat match goal with
      | H : (code _ <? _)%N = _ |- _ => rewrite H
      end;
    repeat match goal with
      | |- context [lower_char ?b] =>
          let C := fresh "C" in
          destruct (continuation b) eqn:C;
          [ rewrite (lower_char_continuation b C)
          | rewrite (continuation_lower_char b), C, ?andb_false_r;
            cbn [andb] ]
      end;
    repeat match goal with
      | H : _ = _ |- _ => rewrite H
      end;
    try done.
  all: rewrite IHo; [done|]; by destruct (decode _).
Qed.

(** A table, looked up. *)
Lemma assoc_In c t table : assoc c table = Some t -> In (c, t) table.
Proof.
  induction table as [|[k v] table IH]; simpl; [done|].
  destruct (N.eqb_spec c k) as [->|_]; [|by right; apply IH].
  intros [= ->]. by left.
Qed.

Lemma lower_table_stable :
  forallb (fun kv => stable kv.2 && scalar kv.2) lower_table = true.
Proof. by vm_compute. Qed.

Lemma forallb_stable l :
  forallb (fun d => stable d && scalar d) l = true ->
  Forall (fun d => stable d = true /\ scalar d = true) l.
Proof.
  induction l as [|d l IH]; simpl; [done|].
  intros [[? ?]%andb_prop ?]%andb_prop. constructor; [done|by apply IH].
Qed.

Lemma ascii_stable :
  forallb (fun c => forallb (fun d => stable d && scalar d) (to_lower_full c))
          (map N.of_nat (seq 0 128)) = true.
Proof. by vm_compute. Qed.

(** What [lower] puts for a character stays as it is under [lower], and
    is a character. *)
Lemma to_lower_full_stable c :
  scalar c = true ->
  Forall (fun d => stable d = true /\ scalar d = true) (to_lower_full c).
Proof.
  intros Hc. destruct (c <? 128)%N eqn:H128.
  { apply forallb_stable.
    pose proof ascii_stable as Hall. rewrite forallb_forall in Hall.
    apply Hall, in_map_iff. exists (N.to_nat c). split; [lia|].
    apply in_seq. arith. }
  unfold to_lower_full. rewrite H128.
  destruct (c =? 304)%N eqn:H304; [by apply forallb_stable|].
  destruct (assoc c lower_table) as [t|] eqn:Ht.
  - apply assoc_In in Ht.
    pose proof lower_table_stable as Hall.
    rewrite forallb_forall in Hall. apply Hall in Ht.
    apply andb_prop in Ht as [? ?]. by repeat constructor.
  - repeat constructor; [|done].
    unfold stable. apply andb_true_intro. split.
    + apply negb_true_iff, N.eqb_neq. intros ->. by vm_compute in Ht.
    + apply bool_decide_eq_true_2. unfold to_lower_full.
      by rewrite H128, H304, Ht.
Qed.

Lemma lower_from_stable before l :
  Forall (fun c => scalar c = true) l ->
  Forall (fun d => stable d = true /\ scalar d = true) (lower_from before l).
Proof.
  intros Hl. revert before.
  induction Hl as [|c l Hc _ IH]; intros before; simpl; [done|].
  apply Forall_app. split; [|apply IH].
  destruct (c =? 931)%N; [|by apply to_lower_full_stable].
  unfold final_sigma. by destruct (_ && _); apply forallb_stable.
Qed.

Lemma lower_from_id before l :
  Forall (fun d => stable d = true) l -> lower_from before l = l.
Proof.
  intros Hl. revert before.
  induction Hl as [|c l Hc _ IH]; intros before; simpl; [done|].
  unfold stable in Hc. apply andb_prop in Hc as [H931 Hc].
  apply negb_true_iff in H931. apply bool_decide_eq_true_1 in Hc.
  by rewrite H931, Hc, IH.
Qed.

(** Lowering twice is lowering once. *)
Lemma lower_idemp s : lower (lower s) = lower s.
Proof.
  unfold lower at 2 3. destruct (decode s) as [l|] eqn:Hs.
  - apply decode_scalar in Hs.
    pose proof (lower_from_stable [] l Hs) as Hl.
    unfold lower. rewrite decode_encode.
    + rewrite lower_from_id; [done|].
      eapply Forall_impl; [exact Hl|]. by intros ? [? ?].
    + eapply Forall_impl; [exact Hl|]. by intros ? [? ?].
  - unfold lower. by rewrite decode_ascii_lower, ascii_lower_idemp.
Qed.





Lemma lowered_lower s : lowered (lower s).
Proof. apply lower_idemp. Qed.


Lemma line_row_lowercase header_dict line r :
  line_row header_dict line = Return r -> lowercase_row r.
Proof.
  unfold line_row. intros H. rbind_inv H.
  apply line_params_Return in E
    as (? & _ & (? & _ & E1) & _ & _ & _ & (? & _ & E2) & (? & _ & E3)
          & (? & _ & E4) & _ & (? & _ & E5)).
  unfold lowercase_row.
  apply bind_params_Return in H as (-> & -> & -> & -> & -> & _).
  rewrite E1, E2, E3, E4, E5. repeat split; apply lowered_lower.
Qed.

Lemma line_row_not_blank header_dict line r :
  line_row header_dict line = Return r -> ~ blank line.
Proof.
  unfold line_row, blank. intros H Hb. rbind_inv H.
  apply line_params_Return in E
    as (fields & Hs & _ & (x & (j & _ & Hj) & Hint) & _).
  rewrite Hb in Hs. unfold split in Hs.
  destruct SEP; [discriminate Hs|]. injection Hs as <-.
  destruct j as [|j]; simpl in Hj; [|by destruct j].
  injection Hj as <-. vm_compute in Hint. discriminate Hint.
Qed.

Lemma parse_header_file f : (parse_header f).2 = (readline f).2.
Proof. unfold parse_header. by destruct (readline f). Qed.

(** What [create_table] leaves behind and, when it returns, where the
    rows come from. *)
Lemma create_table_outcome csv db res db' :
  create_table csv db = (res, db') ->
  exists rows,
    db' = Database (Some rows) /\
    Forall lowercase_row rows /\
    (res = Return tt ->
     exists header_dict,
       (parse_header (open csv)).1 = Return header_dict /\
       Forall2 (fun line r => line_row header_dict line = Return r)
               (data_lines csv) rows).
Proof.
  rewrite create_table_unfold. unfold data_lines.
  rewrite <- parse_header_file.
  destruct (parse_header (open csv)) as [[e|hd] f]; simpl.
  { intros [= <- <-]. exists []. by repeat split. }
  destruct (for_each f _ _) as [r0 db0] eqn:Hrun.
  apply for_each_insert in Hrun as (rows & -> & Hall & Hok).
  simpl in *. intros Hres. exists rows.
  assert (db' = Database (Some rows)) as ->
    by (by destruct r0 as [?|[]]; injection Hres as <- <-).
  split; [done|]. split.
  - eapply Forall_impl; [exact Hall|]. intros r (line & _ & Hr).
    by eapply line_row_lowercase.
  - intros ->. exists hd. split; [done|]. apply Hok.
    by destruct r0 as [?|[]].
Qed.

(** C1. When [create_table] returns on a CSV file, [get_pokemon_names]
    then returns the names of the data lines of the file (the field in the
    column headed [pokemon], as stored: in lower case), one per line,
    repeated names included, in ascending order; there are as many as the
    file has data lines, none of which is blank. *)
Theorem get_pokemon_names_after_load (csv : string) (db db' : database) :
  create_table csv db = (Return tt, db') ->
  exists header_dict names l,
    (parse_header (open csv)).1 = Return header_dict /\
    Forall2 (fun line n =>
               exists fields x,
                 split (strip line) SEP = Return fields /\
                 field header_dict fields "pokemon" x /\
                 n = lower x)
            (data_lines csv) names /\
    get_pokemon_names db' = (Return l, db') /\
    Sorted String.le l /\
    l ≡ₚ names /\
    length l = length (data_lines csv) /\
    length l = length (filter (fun line => ~ blank line) (data_lines csv)).
Proof.
  intros Hload.
  apply create_table_outcome in Hload as (rows & -> & _ & Hok).
  destruct (Hok eq_refl) as (hd & Hhd & Hrows). clear Hok.
  exists hd, (name <$> rows), (sorted (name <$> rows)).
  split; [done|]. split; [|split; [|split; [|split; [|split]]]].
  - apply Forall2_fmap_r. eapply Forall2_impl; [exact Hrows|].
    intros line r Hr; simpl. unfold line_row in Hr. rbind_inv Hr.
    apply line_params_Return in E as (fields & Hs & (x & Hf & Hx) & _).
    apply bind_params_Return in Hr as (-> & _).
    by exists fields, x.
  - unfold get_pokemon_names, bind, select, fetchall, ret; simpl.
    by rewrite filter_True, append_all_id.
  - apply sorted_Sorted.
  - apply sorted_Permutation.
  - rewrite sorted_Permutation, length_fmap.
    symmetry. by eapply Forall2_length.
  - rewrite sorted_Permutation, length_fmap.
    rewrite <- (Forall2_length _ _ _ Hrows). f_equal.
    symmetry. apply filter_all.
    induction Hrows as [|line r lines rows Hr _ IH]; constructor; [|done].
    by eapply line_row_not_blank.
Qed.

(** ** The lower-case invariant *)

Lemma run_read_only op db : (forall csv, op <> Load csv) -> run op db = db.
Proof.
  intros Hop. destruct op; simpl.
  - by destruct (Hop csv).
  - apply table_exists_read_only.
  - apply get_pokemon_names_read_only.
  - apply get_pokemon_ids_read_only.
  - apply get_stats_by_name_read_only.
  - apply get_stats_by_id_read_only.
  - apply get_pokemon_types_read_only.
  - apply get_pokemon_by_type_read_only.
Qed.

Lemma create_table_lowercase csv db :
  exists rows,
    (create_table csv db).2 = Database (Some rows) /\ Forall lowercase_row rows.
Proof.
  destruct (create_table csv db) as [res db'] eqn:Hload.
  apply create_table_outcome in Hload as (rows & -> & Hlow & _).
  by exists rows.
Qed.

Lemma run_lowercase op db : lowercase_table db -> lowercase_table (run op db).
Proof.
  intros Hdb. destruct op;
    try (rewrite run_read_only; [done|by intros ?]).
  simpl. destruct (create_table_lowercase csv db) as (rows & -> & Hlow).
  exact Hlow.
Qed.

Lemma run_all_lowercase ops : forall db,
  lowercase_table db -> lowercase_table (run_all ops db).
Proof.
  induction ops as [|op ops IH]; intros db Hdb; simpl; [done|].
  apply IH. by apply run_lowercase.
Qed.

(** C4. After a load, whether it returned or raised half-way, the table
    exists and the five text fields of every row ([name], [type_1],
    [type_2], [url_image], [evolves_from_species_id]) are in lower case:
    each is its own [lower()], whatever the case of the letters in the
    file.  Every operation other than a load leaves the database as it
    is.  So after a load the rows stay in lower case through every
    sequence of operations, further loads included. *)
Theorem lowercase_invariant (csv : string) (db : database) :
  (exists rows,
      (create_table csv db).2 = Database (Some rows) /\
      Forall (fun r =>
                lower (name r) = name r /\ lower (type_1 r) = type_1 r /\
                lower (type_2 r) = type_2 r /\
                lower (url_image r) = url_image r /\
                lower (evolves_from_species_id r) = evolves_from_species_id r)
             rows) /\
  (forall op db0, (forall csv0, op <> Load csv0) -> run op db0 = db0) /\
  (forall ops, lowercase_table (run_all ops (create_table csv db).2)).
Proof.
  destruct (create_table_lowercase csv db) as (rows & Hdb & Hlow).
  split; [|split].
  - by exists rows.
  - apply run_read_only.
  - intros ops. apply run_all_lowercase. by rewrite Hdb.
Qed.

(** ** The header *)

Lemma index_raises l x e : index l x = Raise e -> e = ValueError.
Proof.
  revert e. induction l as [|y l IH]; intros e; simpl; [by intros [= <-]|].
  case_decide; [done|]. destruct (index l x); simpl; [|done].
  intros [= <-]. by apply IH.
Qed.

Lemma index_absent l x : x ∉ l -> index l x = Raise ValueError.
Proof.
  induction l as [|y l IH]; simpl; [done|]. intros Hx.
  apply not_elem_of_cons in Hx as [Hne Hx].
  case_decide; [by subst|]. by rewrite IH.
Qed.

Lemma index_Return l x i :
  index l x = Return i ->
  l !! i = Some x /\ forall j, j < i -> l !! j <> Some x.
Proof.
  revert i. induction l as [|y l IH]; intros i; simpl; [done|].
  case_decide as Hy.
  - intros [= <-]. subst. split; [done|]. lia.
  - destruct (index l x) as [|i'] eqn:E; simpl; [done|]. intros [= <-].
    destruct (IH i' eq_refl) as [Hi Hfirst]. split; [done|].
    intros [|j] Hj; simpl; [congruence|]. apply Hfirst. lia.
Qed.

Lemma index_present l x : x ∈ l -> exists i, index l x = Return i.
Proof.
  induction l as [|y l IH]; simpl; [by intros ?%elem_of_nil|].
  intros [->|Hx]%elem_of_cons; case_decide; eauto; try done.
  destruct (IH Hx) as [i ->]. eauto.
Qed.

Lemma parse_header_loop_absent header cols c : forall res,
  c ∈ cols -> c ∉ header ->
  parse_header_loop header cols res = Raise ValueError.
Proof.
  induction cols as [|c0 cols IH]; intros res Hc Hno; simpl.
  - by apply elem_of_nil in Hc.
  - destruct (index header c0) as [e|i] eqn:E; simpl.
    + by rewrite (index_raises _ _ _ E).
    + apply elem_of_cons in Hc as [->|Hc]; [|by apply IH].
      by rewrite index_absent in E.
Qed.

Lemma parse_header_loop_present header cols : forall res,
  (forall c, c ∈ cols -> c ∈ header) ->
  exists d,
    parse_header_loop header cols res = Return d /\
    (forall c, c ∈ cols -> exists i, d !! c = Some i /\ index header c = Return i) /\
    (forall c, c ∉ cols -> d !! c = res !! c).
Proof.
  induction cols as [|c0 cols IH]; intros res Hall; simpl.
  - exists res. split; [done|]. split; [by intros c ?%elem_of_nil|done].
  - destruct (index_present header c0) as [i0 E0]; [apply Hall; left|].
    rewrite E0; simpl.
    destruct (IH (<[c0:=i0]> res)) as (d & -> & Hin & Hout).
    { intros c Hc. apply Hall. by right. }
    exists d. split; [done|]. split.
    + intros c [->|Hc]%elem_of_cons; [|by apply Hin].
      destruct (decide (c0 ∈ cols)) as [Hc0|Hc0]; [by apply Hin|].
      exists i0. by rewrite Hout, lookup_insert_eq.
    + intros c [Hne Hc]%not_elem_of_cons.
      by rewrite Hout, lookup_insert_ne.
Qed.



(** ** Loading twice *)

(** C8. Loading the same CSV file a second time, right after the first,
    ends the same way and leaves the same database: the same rows, as
    many of them, and the same outcome for every query
    ([table_exists], [get_pokemon_names], [get_pokemon_ids],
    [get_stats_by_name], [get_stats_by_id], [get_pokemon_types],
    [get_pokemon_by_type]).  The outcome of a load does not depend on what
    the database held before. *)
Theorem create_table_idempotent (csv : string) (db : database)
    (r1 r2 : result unit) (db1 db2 : database) :
  create_table csv db = (r1, db1) ->
  create_table csv db1 = (r2, db2) ->
  r2 = r1 /\ db2 = db1 /\
  length (stored_rows db2) = length (stored_rows db1) /\
  table_exists db2 = table_exists db1 /\
  get_pokemon_names db2 = get_pokemon_names db1 /\
  get_pokemon_ids db2 = get_pokemon_ids db1 /\
  (forall n, get_stats_by_name n db2 = get_stats_by_name n db1) /\
  (forall i, get_stats_by_id i db2 = get_stats_by_id i db1) /\
  get_pokemon_types db2 = get_pokemon_types db1 /\
  (forall t, get_pokemon_by_type t db2 = get_pokemon_by_type t db1) /\
  (forall db0, create_table csv db0 = (r1, db1)).
Proof.
  intros H1 H2.
  rewrite (create_table_any_database csv db1 db), H1 in H2.
  injection H2 as <- <-. repeat split; try done.
Qed.

(** * Further properties of the module *)

(** ** The queries by species id *)

Lemma sorted_int_Sorted l : Sorted Z.le (sorted_int l).
Proof. apply (Sorted_merge_sort Z.le). Qed.

Lemma sorted_int_Permutation l : sorted_int l ≡ₚ l.
Proof. apply merge_sort_Permutation. Qed.

(** X1. On a database whose table exists, [get_pokemon_ids] returns the
    species ids of all the rows, repeated ids included, in non-decreasing
    order: as many as there are rows, and as many as [get_pokemon_names]
    returns.  On a database without the table it raises
    [sqlite3.OperationalError]. *)
Theorem get_pokemon_ids_spec (db : database) :
  match pokemon db with
  | Some rows =>
      exists l,
        get_pokemon_ids db = (Return l, db) /\
        Sorted Z.le l /\
        l ≡ₚ species_id <$> rows /\
        length l = length rows /\
        exists names,
          get_pokemon_names db = (Return names, db) /\
          length names = length l
  | None => get_pokemon_ids db = (Raise OperationalError, db)
  end.
Proof.
  destruct db as [[rows|]]; simpl; [|done].
  unfold get_pokemon_ids, get_pokemon_names, bind, select, fetchall, ret;
    simpl.
  rewrite !filter_True, !append_all_id.
  eexists. split; [done|]. split; [apply sorted_int_Sorted|].
  split; [apply sorted_int_Permutation|].
  split; [by rewrite sorted_int_Permutation, length_fmap|].
  eexists. split; [done|].
  by rewrite sorted_Permutation, sorted_int_Permutation, !length_fmap.
Qed.

(** The first element of a filtered list is the first element of the list
    that passes the filter. *)
Lemma head_filter_Some {A} (P : A -> Prop) `{!forall x, Decision (P x)}
    (l : list A) (x : A) :
  head (filter P l) = Some x <->
  exists k, l !! k = Some x /\ P x /\
            forall j y, j < k -> l !! j = Some y -> ~ P y.
Proof.
  induction l as [|a l IH]; simpl.
  - split; [done|]. by intros (k & ? & _).
  - destruct (decide (P a)) as [Ha|Ha].
    + rewrite filter_cons_True by done. simpl. split.
      * intros [= ->]. exists 0. split; [done|]. split; [done|]. lia.
      * intros ([|k] & Hk & Hx & Hfirst); simpl in Hk; [by injection Hk as ->|].
        destruct (Hfirst 0 a); [lia|done|done].
    + rewrite filter_cons_False by done. rewrite IH. split.
      * intros (k & Hk & Hx & Hfirst). exists (S k).
        split; [done|]. split; [done|].
        intros [|j] y Hj; simpl; [by intros [= <-]|]. apply Hfirst. lia.
      * intros ([|k] & Hk & Hx & Hfirst); simpl in Hk.
        { by injection Hk as ->. }
        exists k. split; [done|]. split; [done|].
        intros j y Hj Hy. apply (Hfirst (S j) y); [lia|done].
Qed.

Lemma head_filter_None {A} (P : A -> Prop) `{!forall x, Decision (P x)}
    (l : list A) :
  head (filter P l) = None <-> forall x, x ∈ l -> ~ P x.
Proof.
  rewrite head_None. split.
  - intros Hnil x Hx HP.
    assert (x ∈ filter P l) as Hin by (by apply list_elem_of_filter).
    rewrite Hnil in Hin. by apply elem_of_nil in Hin.
  - intros Hno. apply elem_of_nil_inv. intros x [HP Hx]%list_elem_of_filter.
    by apply (Hno x).
Qed.

(** What a lookup does with the rows the condition selects. *)
Lemma lookup_first {A} (l : list A) :
  getitem l 0 = match head l with
                | Some x => Return x
                | None => Raise IndexError
                end.
Proof. by destruct l. Qed.

(** An id that fits a signed 64-bit integer is bound as it is; any other
    cannot be bound. *)
Lemma bind_integer_fits i :
  (- 2 ^ 63 <= i < 2 ^ 63)%Z -> bind_integer i = Return i.
Proof. intros Hi. unfold bind_integer. by rewrite decide_True. Qed.

Lemma bind_integer_overflow i :
  ~ (- 2 ^ 63 <= i < 2 ^ 63)%Z -> bind_integer i = Raise OverflowError.
Proof. intros Hi. unfold bind_integer. by rewrite decide_False. Qed.

(** X2. On a database whose table exists: [get_stats_by_id] raises
    [OverflowError] when the species id asked for does not fit a signed
    64-bit integer, which is what SQLite can bind to the statement; for
    an id that fits, it raises the [IndexError] of [data[0]] when no row
    has that species id, and otherwise returns the first row, in table
    order, that has it.  On a database without the table it raises
    [sqlite3.OperationalError], whatever the id. *)
Theorem get_stats_by_id_spec (db : database) (i : Z) :
  match pokemon db with
  | Some rows =>
      (~ (- 2 ^ 63 <= i < 2 ^ 63)%Z ->
       get_stats_by_id i db = (Raise OverflowError, db)) /\
      ((- 2 ^ 63 <= i < 2 ^ 63)%Z ->
       ((forall r, r ∈ rows -> species_id r <> i) ->
        get_stats_by_id i db = (Raise IndexError, db)) /\
       ((exists r, r ∈ rows /\ species_id r = i) ->
        exists r k,
          get_stats_by_id i db = (Return r, db) /\
          rows !! k = Some r /\ species_id r = i /\
          forall j r', j < k -> rows !! j = Some r' -> species_id r' <> i))
  | None => get_stats_by_id i db = (Raise OperationalError, db)
  end.
Proof.
  destruct db as [[rows|]]; simpl; [|done].
  unfold get_stats_by_id, bind, prepare, select, fetchall, lift; simpl.
  split; [by intros ->%bind_integer_overflow|].
  intros ->%bind_integer_fits.
  rewrite list_fmap_id, lookup_first.
  destruct (head (filter (fun r => species_id r = i) rows)) as [r|] eqn:E.
  - apply head_filter_Some in E as (k & Hk & Hi & Hfirst). split.
    + intros Hno. destruct (Hno r); [|done].
      by eapply list_elem_of_lookup_2.
    + intros _. by exists r, k.
  - split; [done|]. intros (r & Hr & Hi).
    rewrite head_filter_None in E. by destruct (E r Hr).
Qed.

(** ** Listing and looking up *)

(** X3. On every database, what the listings return is what the lookups
    find: a name is in the list of [get_pokemon_names] exactly when
    [get_stats_by_name] returns a row for it, which then bears that name,
    and a name that is not listed makes the lookup raise [IndexError]; the
    same holds for [get_pokemon_ids] and [get_stats_by_id] at every id
    that fits a signed 64-bit integer, and any other id makes the lookup
    raise [OverflowError]. *)
Theorem listed_iff_found (db : database) :
  (forall names, get_pokemon_names db = (Return names, db) ->
     forall n,
       (n ∈ names <->
        exists r, get_stats_by_name n db = (Return r, db) /\ name r = n) /\
       (n ∉ names <-> get_stats_by_name n db = (Raise IndexError, db))) /\
  (forall ids, get_pokemon_ids db = (Return ids, db) ->
     forall i,
       ((- 2 ^ 63 <= i < 2 ^ 63)%Z ->
        (i ∈ ids <->
         exists r, get_stats_by_id i db = (Return r, db) /\
                   species_id r = i) /\
        (i ∉ ids <-> get_stats_by_id i db = (Raise IndexError, db))) /\
       (~ (- 2 ^ 63 <= i < 2 ^ 63)%Z ->
        get_stats_by_id i db = (Raise OverflowError, db))).
Proof.
  destruct db as [[rows|]]; [|by split; intros ? [=]].
  unfold get_pokemon_names, get_pokemon_ids, get_stats_by_name,
    get_stats_by_id, bind, prepare, select, fetchall, ret, lift; simpl.
  rewrite !filter_True, !append_all_id.
  split; intros l [= <-] x.
  - rewrite list_fmap_id, lookup_first.
    rewrite sorted_Permutation, list_elem_of_fmap.
    destruct (head (filter (fun r => name r = x) rows)) as [r|] eqn:E.
    + apply head_filter_Some in E as (k & Hk & Hx & _).
      apply list_elem_of_lookup_2 in Hk.
      split; split; try done; [by eauto|by eauto|].
      intros Hno. destruct Hno. by exists r.
    + rewrite head_filter_None in E.
      split; split; try done.
      * intros (r & -> & Hr). by destruct (E r Hr).
      * by intros (r & [=] & _).
      * intros _ (r & -> & Hr). by destruct (E r Hr).
  - split; [|by intros ->%bind_integer_overflow].
    intros ->%bind_integer_fits.
    rewrite list_fmap_id, lookup_first.
    rewrite sorted_int_Permutation, list_elem_of_fmap.
    destruct (head (filter (fun r => species_id r = x) rows)) as [r|] eqn:E.
    + apply head_filter_Some in E as (k & Hk & Hx & _).
      apply list_elem_of_lookup_2 in Hk.
      split; split; try done; [by eauto|by eauto|].
      intros Hno. destruct Hno. by exists r.
    + rewrite head_filter_None in E.
      split; split; try done.
      * intros (r & -> & Hr). by destruct (E r Hr).
      * by intros (r & [=] & _).
      * intros _ (r & -> & Hr). by destruct (E r Hr).
Qed.


(** ** What a load accepts *)

Lemma line_row_Return header_dict line r :
  line_row header_dict line = Return r <->
  exists p, line_params header_dict line = Return p /\ bind_params p = Return r.
Proof.
  unfold line_row. destruct (line_params header_dict line) as [e|p]; simpl.
  - split; [done|]. by intros (p & [=] & _).
  - split; [by exists p|]. by intros (p' & [= <-] & ?).
Qed.

Lemma line_row_Raise header_dict line e :
  line_row header_dict line = Raise e <->
  line_params header_dict line = Raise e \/
  exists p, line_params header_dict line = Return p /\ bind_params p = Raise e.
Proof.
  unfold line_row. destruct (line_params header_dict line) as [e'|p]; simpl.
  - split; [intros [= ->]; by left|].
    intros [He|(p & Hp & _)]; [by injection He as ->|discriminate Hp].
  - split; [intros Hb; right; by exists p|].
    intros [Hp|(p' & Hp & Hb)]; [discriminate Hp|].
    by injection Hp as <-.
Qed.

(** The loop, when every line gives a row. *)
Lemma for_each_insert_returns header_dict lines rows :
  Forall2 (fun line r => line_row header_dict line = Return r) lines rows ->
  forall rows0,
    for_each lines (fun line =>
        p <- lift (line_params header_dict line) ;;
        insert_into_pokemon p) (Database (Some rows0))
    = (Return tt, Database (Some (rows0 ++ rows))).
Proof.
  induction 1 as [|line r lines rows Hr _ IH]; intros rows0; simpl.
  - by rewrite app_nil_r.
  - apply line_row_Return in Hr as (p & Hp & Hb).
    unfold bind at 1 2, lift. rewrite Hp. simpl.
    unfold insert_into_pokemon; simpl. rewrite Hb.
    by rewrite IH, <- app_assoc.
Qed.


(** A loop that raises did so at some line, after rows for the lines
    before it. *)
Lemma for_each_insert_raised header_dict lines : forall rows0 e db',
  for_each lines (fun line =>
      p <- lift (line_params header_dict line) ;;
      insert_into_pokemon p) (Database (Some rows0)) = (Raise e, db') ->
  exists good bad rest rows,
    lines = good ++ bad :: rest /\
    Forall2 (fun line r => line_row header_dict line = Return r) good rows /\
    line_row header_dict bad = Raise e /\
    db' = Database (Some (rows0 ++ rows)).
Proof.
  induction lines as [|line lines IH]; intros rows0 e db'; simpl; [done|].
  unfold bind at 1 2, lift.
  destruct (line_params header_dict line) as [e'|p] eqn:Hp; simpl.
  { intros [= <- <-]. exists [], line, lines, [].
    rewrite app_nil_r. split; [done|]. split; [constructor|].
    split; [|done]. apply line_row_Raise. by left. }
  unfold insert_into_pokemon; simpl.
  destruct (bind_params p) as [e'|r] eqn:Hb; simpl.
  { intros [= <- <-]. exists [], line, lines, [].
    rewrite app_nil_r. split; [done|]. split; [constructor|].
    split; [|done]. apply line_row_Raise. right. by exists p. }
  intros Hrun.
  destruct (IH _ _ _ Hrun) as (good & bad & rest & rows & -> & Hgood & Hbad & ->).
  exists (line :: good), bad, rest, (r :: rows).
  rewrite <- app_assoc. split; [done|]. split; [|done].
  constructor; [|done]. apply line_row_Return. by exists p.
Qed.

Lemma parse_header_pair csv :
  parse_header (open csv) = ((parse_header (open csv)).1, data_lines csv).
Proof.
  unfold data_lines. rewrite <- parse_header_file.
  by destruct (parse_header (open csv)).
Qed.

Lemma create_table_returns csv header_dict rows db :
  (parse_header (open csv)).1 = Return header_dict ->
  Forall2 (fun line r => line_row header_dict line = Return r)
          (data_lines csv) rows ->
  create_table csv db = (Return tt, Database (Some rows)).
Proof.
  intros Hhd Hrows. rewrite create_table_unfold, parse_header_pair, Hhd.
  by rewrite (for_each_insert_returns _ _ _ Hrows).
Qed.


(** X4. [create_table] returns exactly when the header of the file gives
    a dict and every data line gives a row; the table then holds those
    rows, one per data line, in the order of the file, whatever the
    database held before. *)
Theorem create_table_returns_iff (csv : string) (db db' : database) :
  create_table csv db = (Return tt, db') <->
  exists header_dict rows,
    (parse_header (open csv)).1 = Return header_dict /\
    Forall2 (fun line r => line_row header_dict line = Return r)
            (data_lines csv) rows /\
    db' = Database (Some rows).
Proof.
  split.
  - intros Hload.
    apply create_table_outcome in Hload as (rows & -> & _ & Hok).
    destruct (Hok eq_refl) as (hd & Hhd & Hrows). by exists hd, rows.
  - intros (hd & rows & Hhd & Hrows & ->). by eapply create_table_returns.
Qed.



Lemma dict_getitem_Some d k i : d !! k = Some i -> dict_getitem d k = Return i.
Proof. unfold dict_getitem. by intros ->. Qed.

Lemma getitem_Some {A} (l : list A) i x : l !! i = Some x -> getitem l i = Return x.
Proof. unfold getitem. by intros ->. Qed.

Ltac use_field H :=
  let i := fresh "i" in
  let Hd := fresh "Hd" in
  let Hf := fresh "Hf" in
  destruct H as (i & Hd & Hf);
  rewrite (dict_getitem_Some _ _ _ Hd); cbn [rbind];
  rewrite (getitem_Some _ _ _ Hf); cbn [rbind].

(** X6. A data line gives a row exactly when its nine fields are there and
    its numbers parse and fit, and the row is then made of the fields in
    the nine columns: the texts in lower case, [species_id] and
    [generation_id] as [int] reads them, within 64 bits, [height] and
    [weight] as [float] reads them and SQLite stores them. *)
Theorem line_row_spec (header_dict : gmap string nat) (line : string) (r : row) :
  line_row header_dict line = Return r <->
  exists fields x_pokemon x_species_id x_height x_weight x_type_1 x_type_2
         x_url_image x_generation_id x_evolves h w,
    split (strip line) SEP = Return fields /\
    field header_dict fields "pokemon" x_pokemon /\
    field header_dict fields "species_id" x_species_id /\
    field header_dict fields "height" x_height /\
    field header_dict fields "weight" x_weight /\
    field header_dict fields "type_1" x_type_1 /\
    field header_dict fields "type_2" x_type_2 /\
    field header_dict fields "url_image" x_url_image /\
    field header_dict fields "generation_id" x_generation_id /\
    field header_dict fields "evolves_from_species_id" x_evolves /\
    name r = lower x_pokemon /\
    int x_species_id = Return (species_id r) /\
    (- 2 ^ 63 <= species_id r < 2 ^ 63)%Z /\
    float x_height = Return h /\ height r = bind_real h /\
    float x_weight = Return w /\ weight r = bind_real w /\
    type_1 r = lower x_type_1 /\
    type_2 r = lower x_type_2 /\
    url_image r = lower x_url_image /\
    int x_generation_id = Return (generation_id r) /\
    (- 2 ^ 63 <= generation_id r < 2 ^ 63)%Z /\
    evolves_from_species_id r = lower x_evolves.
Proof.
  split.
  - intros (p & Hp & Hb)%line_row_Return.
    apply line_params_Return in Hp
      as (fields & Hs & (x1 & F1 & E1) & (x2 & F2 & E2) & (x3 & F3 & E3)
            & (x4 & F4 & E4) & (x5 & F5 & E5) & (x6 & F6 & E6)
            & (x7 & F7 & E7) & (x8 & F8 & E8) & (x9 & F9 & E9)).
    apply bind_params_Return in Hb
      as (B1 & B5 & B6 & B7 & B9 & B2 & B8 & B3 & B4 & R2 & R8).
    exists fields, x1, x2, x3, x4, x5, x6, x7, x8, x9, (p_height p), (p_weight p).
    rewrite B1, B2, B5, B6, B7, B8, B9 in *.
    by repeat (split; [done|]).
  - intros (fields & x1 & x2 & x3 & x4 & x5 & x6 & x7 & x8 & x9 & h & w
              & Hs & F1 & F2 & F3 & F4 & F5 & F6 & F7 & F8 & F9
              & E1 & E2 & R2 & E3 & B3 & E4 & B4 & E5 & E6 & E7 & E8 & R8 & E9).
    destruct r as [n sid hh ww t1 t2 url gid evo]. simpl in *. subst.
    unfold line_row, line_params. rewrite Hs. cbn [rbind].
    use_field F1. use_field F2. rewrite E2. cbn [rbind].
    use_field F3. rewrite E3. cbn [rbind].
    use_field F4. rewrite E4. cbn [rbind].
    use_field F5. use_field F6. use_field F7.
    use_field F8. rewrite E8. cbn [rbind].
    use_field F9.
    unfold bind_params, bind_integer. cbn [p_species_id p_generation_id].
    rewrite !decide_True by done. done.
Qed.

(** ** The header dict *)

Lemma NoDup_columns : NoDup columns.
Proof. apply (bool_decide_unpack (NoDup columns)). by vm_compute. Qed.

Lemma parse_header_loop_Return header cols res d :
  parse_header_loop header cols res = Return d ->
  (forall c, c ∈ cols -> exists i, d !! c = Some i /\ index header c = Return i) /\
  (forall c, c ∉ cols -> d !! c = res !! c).
Proof.
  intros Hd.
  assert (forall c, c ∈ cols -> c ∈ header) as Hall.
  { intros c Hc. destruct (decide (c ∈ header)) as [|Hno]; [done|].
    by rewrite (parse_header_loop_absent _ _ _ res Hc Hno) in Hd. }
  destruct (parse_header_loop_present header cols res Hall) as (d' & Hd' & H).
  rewrite Hd in Hd'. by injection Hd' as <-.
Qed.

Lemma parse_header_inv (f : file) header_dict :
  (parse_header f).1 = Return header_dict ->
  exists header,
    split (strip (readline f).1) SEP = Return header /\
    (forall c, c ∈ columns ->
        exists i, header_dict !! c = Some i /\ index header c = Return i) /\
    (forall c, c ∉ columns -> header_dict !! c = None).
Proof.
  unfold parse_header. destruct (readline f) as [line f']. cbn [fst snd].
  destruct (split (strip line) SEP) as [e|header]; unfold rbind; [done|].
  intros [Hin Hout]%parse_header_loop_Return.
  exists header. split; [done|]. split; [done|].
  intros c Hc. by rewrite Hout.
Qed.

(** X7. When [parse_header] returns a dict, the file has moved on by one
    line; the keys of the dict are the nine column names and nothing else;
    each is mapped to the position of its first occurrence among the fields
    of the header, so different names are mapped to different positions;
    and the header has at least nine fields. *)
Theorem parse_header_returns (f : file) (header_dict : gmap string nat) :
  (parse_header f).1 = Return header_dict ->
  exists header,
    split (strip (readline f).1) SEP = Return header /\
    (parse_header f).2 = tail f /\
    dom header_dict = list_to_set columns /\
    (forall c i, header_dict !! c = Some i ->
       header !! i = Some c /\ forall j, j < i -> header !! j <> Some c) /\
    (forall c1 c2 i,
       header_dict !! c1 = Some i -> header_dict !! c2 = Some i -> c1 = c2) /\
    9 <= length header.
Proof.
  intros Hhd.
  destruct (parse_header_inv _ _ Hhd) as (header & Hs & Hin & Hout).
  assert (forall c i, header_dict !! c = Some i ->
            header !! i = Some c /\ forall j, j < i -> header !! j <> Some c)
    as Hpos.
  { intros c i Hc. destruct (decide (c ∈ columns)) as [Hcol|Hcol].
    - destruct (Hin c Hcol) as (i' & Hi' & Hidx).
      rewrite Hc in Hi'. injection Hi' as <-. by apply index_Return.
    - by rewrite (Hout c Hcol) in Hc. }
  exists header. split; [done|]. split.
  { rewrite parse_header_file. by destruct f. }
  split; [|split; [done|split]].
  - apply set_eq. intros c. rewrite elem_of_dom, elem_of_list_to_set. split.
    + intros [i Hi]. destruct (decide (c ∈ columns)) as [|Hc]; [done|].
      by rewrite (Hout c Hc) in Hi.
    + intros Hc. destruct (Hin c Hc) as (i & -> & _). by eexists.
  - intros c1 c2 i H1 H2.
    destruct (Hpos c1 i H1) as [E1 _]. destruct (Hpos c2 i H2) as [E2 _].
    congruence.
  - change 9 with (length columns). apply submseteq_length.
    apply NoDup_submseteq; [apply NoDup_columns|].
    intros c Hc. destruct (Hin c Hc) as (i & Hi & _).
    destruct (Hpos c i Hi) as [E _]. by eapply list_elem_of_lookup_2.
Qed.


(** ** Blank lines, and what a load leaves for the other operations *)



(** X9. After a load that returned, [table_exists] returns [True] exactly
    when the file has at least one data line: on a file with a header
    only, the load returns and [table_exists] still returns [False]. *)
Theorem table_exists_after_load (csv : string) (db db' : database) :
  create_table csv db = (Return tt, db') ->
  table_exists db' = (Return (bool_decide (data_lines csv <> [])), db') /\
  (data_lines csv = [] -> db' = Database (Some [])).
Proof.
  intros Hload.
  apply create_table_outcome in Hload as (rows & -> & _ & Hok).
  destruct (Hok eq_refl) as (hd & _ & Hrows).
  destruct Hrows as [|line r lines rows Hr Hrows]; by split.
Qed.

(** X10. Loading, then looking a name up.  After a load that returned,
    take any data line and the name [x] in its [pokemon] column:
    [get_stats_by_name] on [x] in lower case returns the row of the first
    data line that has this name, case apart; so it returns the row of
    the line itself when no line before it has the name. *)
Theorem load_then_get_stats_by_name (csv : string) (db db' : database)
    (header_dict : gmap string nat) (k : nat) (line : string) :
  create_table csv db = (Return tt, db') ->
  (parse_header (open csv)).1 = Return header_dict ->
  data_lines csv !! k = Some line ->
  exists fields x r k' line',
    split (strip line) SEP = Return fields /\
    field header_dict fields "pokemon" x /\
    get_stats_by_name (lower x) db' = (Return r, db') /\
    name r = lower x /\
    k' <= k /\
    data_lines csv !! k' = Some line' /\
    line_row header_dict line' = Return r /\
    (forall j line_j r_j,
        j < k' -> data_lines csv !! j = Some line_j ->
        line_row header_dict line_j = Return r_j -> name r_j <> lower x).
Proof.
  intros Hload Hhd Hk.
  apply create_table_outcome in Hload as (rows & -> & _ & Hok).
  destruct (Hok eq_refl) as (hd & Hhd' & Hrows).
  rewrite Hhd in Hhd'. injection Hhd' as <-.
  destruct (Forall2_lookup_l _ _ _ _ _ Hrows Hk) as (r0 & Hr0 & Hline).
  pose proof Hline as (p & Hp & Hb)%line_row_Return.
  apply line_params_Return in Hp as (fields & Hs & (x & Hf & Hx) & _).
  apply bind_params_Return in Hb as (Hn & _). rewrite Hx in Hn.
  assert (get_stats_by_name (lower x) (Database (Some rows)) =
          (match head (filter (fun r => name r = lower x) rows) with
           | Some r => Return r
           | None => Raise IndexError
           end, Database (Some rows))) as Hget.
  { unfold get_stats_by_name, bind, select, fetchall, lift; simpl.
    by rewrite list_fmap_id, lookup_first. }
  destruct (head (filter (fun r => name r = lower x) rows)) as [r|] eqn:E.
  - apply head_filter_Some in E as (k' & Hk' & Hname & Hfirst).
    destruct (Forall2_lookup_r _ _ _ _ _ Hrows Hk') as (line' & Hl' & Hr').
    exists fields, x, r, k', line'.
    repeat (split; [done|]). split; [|split; [done|split; [done|]]].
    + destruct (decide (k' <= k)) as [|Hgt]; [done|].
      destruct (Hfirst k r0); [lia|done|done].
    + intros j line_j r_j Hj Hlj Hrj.
      destruct (Forall2_lookup_l _ _ _ _ _ Hrows Hlj) as (r' & Hr'j & Hrow).
      rewrite Hrj in Hrow. injection Hrow as <-. by eapply Hfirst.
  - rewrite head_filter_None in E. destruct (E r0); [|done].
    by eapply list_elem_of_lookup_2.
Qed.



(** ** White space around the lines *)




(** ** Types and names *)

Lemma unique_and_sort_nil_iff ell : unique_and_sort ell = [] <-> ell = [].
Proof.
  split.
  - intros Hnil. apply elem_of_nil_inv. intros x Hx.
    apply elem_of_unique_and_sort in Hx. rewrite Hnil in Hx.
    by apply elem_of_nil in Hx.
  - intros ->. apply elem_of_nil_inv. intros x Hx.
    apply elem_of_unique_and_sort in Hx. by apply elem_of_nil in Hx.
Qed.

(** X13. On every database, the types [get_pokemon_types] lists are the
    types for which [get_pokemon_by_type] finds a name: a type is in the
    list exactly when the names returned for it are not none. *)
Theorem listed_types_have_names (db : database) (types : list string) :
  get_pokemon_types db = (Return types, db) ->
  forall t,
    t ∈ types <->
    exists l, get_pokemon_by_type t db = (Return l, db) /\ l <> [].
Proof.
  destruct db as [[rows|]]; [|done].
  unfold get_pokemon_types, get_pokemon_by_type, bind, select, fetchall, ret;
    simpl.
  rewrite filter_True. intros [= <-] t.
  rewrite append_all_id, elem_of_unique_and_sort, elem_of_collect_types.
  split.
  - intros ([t1 t2] & (r & [= -> ->] & Hr)%list_elem_of_fmap & Ht).
    eexists. split; [done|]. rewrite unique_and_sort_nil_iff.
    intros Hnil.
    assert (name r ∈ name <$> filter (fun r => type_1 r = t \/ type_2 r = t) rows)
      as Hin by (apply list_elem_of_fmap_2; by apply list_elem_of_filter).
    rewrite Hnil in Hin. by apply elem_of_nil in Hin.
  - intros (l & [= <-] & Hne). rewrite unique_and_sort_nil_iff in Hne.
    destruct (filter _ rows) as [|r l] eqn:E; [done|].
    assert (r ∈ filter (fun r => type_1 r = t \/ type_2 r = t) rows)
      as [Ht Hr]%list_elem_of_filter by (rewrite E; left).
    exists (type_1 r, type_2 r). split; [|done].
    apply list_elem_of_fmap. by exists r.
Qed.

(** X14. On every database, the names [get_pokemon_names] lists are the
    names [get_pokemon_by_type] returns for the listed types: a name is
    listed exactly when it is returned for some type [get_pokemon_types]
    lists, and no type at all yields a name that is not listed. *)
Theorem names_by_listed_types (db : database) (names : list string) :
  get_pokemon_names db = (Return names, db) ->
  exists types,
    get_pokemon_types db = (Return types, db) /\
    (forall n,
       n ∈ names <->
       exists t l, t ∈ types /\
                   get_pokemon_by_type t db = (Return l, db) /\ n ∈ l) /\
    (forall t l n,
       get_pokemon_by_type t db = (Return l, db) -> n ∈ l -> n ∈ names).
Proof.
  destruct db as [[rows|]]; [|done].
  unfold get_pokemon_names, get_pokemon_types, get_pokemon_by_type, bind,
    select, fetchall, ret; simpl.
  rewrite !filter_True, append_all_id. intros [= <-].
  eexists. split; [done|].
  assert (forall t l n,
    (Return (unique_and_sort
       (append_all (name <$> filter (fun r => type_1 r = t \/ type_2 r = t) rows))),
     Database (Some rows)) = (Return l, Database (Some rows)) ->
    n ∈ l -> n ∈ sorted (name <$> rows)) as Hsub.
  { intros t l n [= <-].
    rewrite append_all_id, elem_of_unique_and_sort, sorted_Permutation,
      !list_elem_of_fmap.
    intros (r & -> & [_ Hr]%list_elem_of_filter). by exists r. }
  split; [|exact Hsub].
  intros n. split.
  - rewrite sorted_Permutation. intros (r & -> & Hr)%list_elem_of_fmap.
    exists (type_1 r). eexists. split; [|split; [done|]].
    + rewrite elem_of_unique_and_sort, elem_of_collect_types.
      exists (type_1 r, type_2 r). split; [|by left].
      apply list_elem_of_fmap. by exists r.
    + rewrite append_all_id, elem_of_unique_and_sort.
      apply list_elem_of_fmap_2. apply list_elem_of_filter. by split; [left|].
  - intros (t & l & _ & Hl & Hn). by eapply Hsub.
Qed.

(** ** [unique_and_sort] *)

(** X15. [unique_and_sort] depends on the elements of its argument only,
    not on their order or number: lists with the same elements give the
    same result.  So applying it twice changes nothing, it leaves a sorted
    list without repetition as it is, it sorts a list without repetition as
    [sorted] does, and its result is never longer than its argument. *)
Theorem unique_and_sort_set (l1 l2 : list string) :
  ((forall x, x ∈ l1 <-> x ∈ l2) -> unique_and_sort l1 = unique_and_sort l2) /\
  unique_and_sort (unique_and_sort l1) = unique_and_sort l1 /\
  (Sorted String.le l1 -> NoDup l1 -> unique_and_sort l1 = l1) /\
  (NoDup l1 -> unique_and_sort l1 = sorted l1) /\
  length (unique_and_sort l1) <= length l1.
Proof.
  assert (forall a b, (forall x, x ∈ a <-> x ∈ b) ->
            unique_and_sort a = unique_and_sort b) as Hset.
  { intros a b Hab. apply sorted_nodup_unique;
      auto using unique_and_sort_Sorted, unique_and_sort_NoDup.
    intros x. by rewrite !elem_of_unique_and_sort. }
  split; [apply Hset|]. split; [|split; [|split]].
  - apply Hset. intros x. apply elem_of_unique_and_sort.
  - intros Hs Hn. apply sorted_nodup_unique;
      auto using unique_and_sort_Sorted, unique_and_sort_NoDup.
    intros x. apply elem_of_unique_and_sort.
  - intros Hn. apply (Sorted_unique String.le);
      auto using unique_and_sort_Sorted, sorted_Sorted.
    rewrite sorted_Permutation.
    apply NoDup_Permutation; auto using unique_and_sort_NoDup.
    intros x. apply elem_of_unique_and_sort.
  - apply submseteq_length, NoDup_submseteq; [apply unique_and_sort_NoDup|].
    intros x. by rewrite elem_of_unique_and_sort.
Qed.

(** ** [table_exists] as a guard *)

(** X16. When [table_exists] returns [True], none of the listings raises
    and none is empty: [get_pokemon_names], [get_pokemon_ids] and
    [get_pokemon_types] return non-empty lists, and [get_pokemon_by_type]
    returns for every type.  When it returns [False], no lookup by name or
    by id can return a row. *)
Theorem table_exists_guard (db : database) :
  (table_exists db = (Return true, db) ->
   (exists names, get_pokemon_names db = (Return names, db) /\ names <> []) /\
   (exists ids, get_pokemon_ids db = (Return ids, db) /\ ids <> []) /\
   (exists types, get_pokemon_types db = (Return types, db) /\ types <> []) /\
   (forall t, exists l, get_pokemon_by_type t db = (Return l, db))) /\
  (table_exists db = (Return false, db) ->
   (forall n r, get_stats_by_name n db <> (Return r, db)) /\
   (forall i r, get_stats_by_id i db <> (Return r, db))).
Proof.
  assert (forall i r, get_stats_by_id i (Database (Some [])) <>
                        (Return r, Database (Some []))) as Hempty.
  { intros i r. unfold get_stats_by_id, bind, prepare, lift; simpl.
    by destruct (bind_integer i). }
  destruct db as [[[|r rows]|]]; (split; [|split]); try done.
  intros _. repeat split.
  - eexists. split; [done|]. intros Hnil.
    apply (f_equal length) in Hnil.
    unfold get_pokemon_names, bind, select, fetchall, ret in Hnil.
    simpl in Hnil. by rewrite filter_True, append_all_id, sorted_Permutation in Hnil.
  - unfold get_pokemon_ids, bind, select, fetchall, ret; simpl.
    eexists. split; [done|]. intros Hnil.
    apply (f_equal length) in Hnil.
    by rewrite filter_True, append_all_id, sorted_int_Permutation in Hnil.
  - unfold get_pokemon_types, bind, select, fetchall, ret; simpl.
    eexists. split; [done|]. rewrite unique_and_sort_nil_iff. intros Hnil.
    match type of Hnil with
    | ?l = [] => assert (type_1 r ∈ l) as Hin
    end.
    { apply elem_of_collect_types. exists (type_1 r, type_2 r).
      split; [|by left]. first [left | rewrite filter_True; left]. }
    rewrite Hnil in Hin. by apply elem_of_nil in Hin.
  - intros t. by eexists.
Qed.

(** ** The order of the rows *)

(** X17. The listings do not depend on the order of the rows in the
    table, so not on the order of the data lines of the file that was
    loaded: two tables with the same rows in different orders give the
    same [get_pokemon_names], [get_pokemon_ids], [get_pokemon_types] and
    [get_pokemon_by_type]. *)
Theorem listings_order_independent (rows1 rows2 : list row) :
  rows1 ≡ₚ rows2 ->
  (get_pokemon_names (Database (Some rows1))).1
    = (get_pokemon_names (Database (Some rows2))).1 /\
  (get_pokemon_ids (Database (Some rows1))).1
    = (get_pokemon_ids (Database (Some rows2))).1 /\
  (get_pokemon_types (Database (Some rows1))).1
    = (get_pokemon_types (Database (Some rows2))).1 /\
  (forall t,
     (get_pokemon_by_type t (Database (Some rows1))).1
     = (get_pokemon_by_type t (Database (Some rows2))).1).
Proof.
  intros Hperm.
  assert (forall a b, (forall x : string, x ∈ a <-> x ∈ b) ->
            unique_and_sort a = unique_and_sort b) as Hset.
  { intros a b Hab. apply sorted_nodup_unique;
      auto using unique_and_sort_Sorted, unique_and_sort_NoDup.
    intros x. by rewrite !elem_of_unique_and_sort. }
  unfold get_pokemon_names, get_pokemon_ids, get_pokemon_types,
    get_pokemon_by_type, bind, select, fetchall, ret; simpl.
  rewrite !filter_True, !append_all_id.
  split; [|split; [|split]].
  - f_equal. apply (Sorted_unique String.le); auto using sorted_Sorted.
    by rewrite !sorted_Permutation, Hperm.
  - f_equal. apply (Sorted_unique Z.le); auto using sorted_int_Sorted.
    by rewrite !sorted_int_Permutation, Hperm.
  - f_equal. apply Hset. intros t. rewrite !elem_of_collect_types.
    by setoid_rewrite Hperm.
  - intros t. f_equal. rewrite !append_all_id. apply Hset. intros n.
    by rewrite Hperm.
Qed.


(** ** The exceptions of a load *)

Lemma split_raises s sep e : split s sep = Raise e -> e = ValueError.
Proof. unfold split. destruct sep; by intros [= <-]. Qed.

Lemma getitem_raises {A} (l : list A) i e : getitem l i = Raise e -> e = IndexError.
Proof. unfold getitem. destruct (l !! i); by intros [= <-]. Qed.

Lemma dict_getitem_raises d k e : dict_getitem d k = Raise e -> d !! k = None.
Proof. unfold dict_getitem. by destruct (d !! k). Qed.

Lemma int_raises s e : int s = Raise e -> e = ValueError.
Proof. unfold int. repeat case_match; by intros [= <-]. Qed.

Lemma float_raises s e : float s = Raise e -> e = ValueError.
Proof. unfold float. repeat case_match; by intros [= <-]. Qed.

Lemma bind_params_raises p e : bind_params p = Raise e -> e = OverflowError.
Proof.
  unfold bind_params, bind_integer. repeat case_decide; by intros [= <-].
Qed.

Lemma parse_header_loop_raises header cols e : forall res,
  parse_header_loop header cols res = Raise e -> e = ValueError.
Proof.
  induction cols as [|c cols IH]; intros res; simpl; [done|].
  destruct (index header c) as [e'|i] eqn:E; simpl.
  - intros [= <-]. by eapply index_raises.
  - apply IH.
Qed.

Lemma parse_header_raises (f : file) e :
  (parse_header f).1 = Raise e -> e = ValueError.
Proof.
  unfold parse_header. destruct (readline f) as [line f']. cbn [fst].
  destruct (split (strip line) SEP) as [e'|header] eqn:E; cbn [rbind].
  - intros [= <-]. by eapply split_raises.
  - apply parse_header_loop_raises.
Qed.

Ltac rbind_raise H Hkeys :=
  repeat match type of H with
         | rbind ?x _ = Raise _ =>
             let E := fresh "E" in
             destruct x eqn:E; simpl in H;
             [ injection H as <-;
               first [ apply split_raises in E
                     | apply getitem_raises in E
                     | apply int_raises in E
                     | apply float_raises in E
                     | apply dict_getitem_raises in E;
                       match type of E with
                       | _ !! ?k = None =>
                           destruct (Hkeys k) as [? ?];
                           [apply list_elem_of_In; simpl; tauto|congruence]
                       end ];
               auto
             | ]
         end.

Lemma line_params_raises header_dict line e :
  (forall c, c ∈ columns -> is_Some (header_dict !! c)) ->
  line_params header_dict line = Raise e ->
  e = ValueError \/ e = IndexError.
Proof.
  intros Hkeys H. unfold line_params in H. rbind_raise H Hkeys.
  discriminate H.
Qed.

(** X18. A load raises nothing but [ValueError], [IndexError] and
    [OverflowError]; when it is [parse_header] that raises, it is
    [ValueError]; and [OverflowError] comes with a line whose values were
    all read, from a [species_id] or [generation_id] outside 64 bits. *)
Theorem create_table_exceptions (csv : string) (db db' : database) (e : exn) :
  create_table csv db = (Raise e, db') ->
  (e = ValueError \/ e = IndexError \/ e = OverflowError) /\
  ((parse_header (open csv)).1 = Raise e -> e = ValueError) /\
  (e = OverflowError ->
   exists header_dict line p,
     (parse_header (open csv)).1 = Return header_dict /\
     line ∈ data_lines csv /\
     line_params header_dict line = Return p /\
     ~ ((- 2 ^ 63 <= p_species_id p < 2 ^ 63)%Z /\
        (- 2 ^ 63 <= p_generation_id p < 2 ^ 63)%Z)).
Proof.
  rewrite create_table_unfold, parse_header_pair.
  destruct (parse_header (open csv)).1 as [e'|hd] eqn:Hhd.
  { intros [= <- <-]. apply parse_header_raises in Hhd as ->.
    split; [by left|]. by split. }
  destruct (for_each _ _ _) as [[e'|[]] db0] eqn:Hrun; [|done].
  intros [= <- <-].
  apply for_each_insert_raised
    in Hrun as (good & bad & rest & rows & Hlines & _ & Hbad & _).
  assert (forall c, c ∈ columns -> is_Some (hd !! c)) as Hkeys.
  { intros c Hc. destruct (parse_header_inv _ _ Hhd) as (header & _ & Hin & _).
    destruct (Hin c Hc) as (i & Hi & _). rewrite Hi. by eexists. }
  apply line_row_Raise in Hbad as [Hp|(p & Hp & Hb)].
  - apply (line_params_raises _ _ _ Hkeys) in Hp as [-> | ->].
    + split; [by left|]. by split.
    + split; [right; by left|]. by split.
  - pose proof (bind_params_raises _ _ Hb) as ->.
    split; [right; by right|]. split; [done|]. intros _.
    exists hd, bad, p. split; [done|]. split.
    { rewrite Hlines. apply elem_of_app. right. left. }
    split; [done|]. intros [H1 H2].
    unfold bind_params, bind_integer in Hb.
    by rewrite !decide_True in Hb by done.
Qed.

End Backend.

(** * Concrete runs, with the comma as separator *)

(** C9. The scenario: from any database, loading the file and asking for
    ["bulbasaur"] returns the row
    [("bulbasaur", 1, 0.7, 6.9, "grass", "poison", "http://x", 1, "")],
    where [0.7] and [6.9] are the binary64 numbers nearest to 7/10 and
    69/10; the load itself returns and leaves a table with that one row.
    The same holds when the data row ends with a line end. *)
Theorem bulbasaur_scenario (db : database) :
  (create_table "," bulbasaur_csv ;;; get_stats_by_name "bulbasaur") db
    = (Return bulbasaur, Database (Some [bulbasaur])) /\
  create_table "," bulbasaur_csv db
    = (Return tt, Database (Some [bulbasaur])) /\
  (create_table "," bulbasaur_csv_newline ;;; get_stats_by_name "bulbasaur") db
    = (Return bulbasaur, Database (Some [bulbasaur])) /\
  height bulbasaur = Some float_0_7 /\ within_half_ulp 7 10 float_0_7 /\
  weight bulbasaur = Some float_6_9 /\ within_half_ulp 69 10 float_6_9.
Proof.
  split; [|split; [|split]].
  - unfold bind. rewrite (create_table_any_database _ _ db (Database None)).
    by vm_compute.
  - rewrite (create_table_any_database _ _ db (Database None)).
    by vm_compute.
  - unfold bind. rewrite (create_table_any_database _ _ db (Database None)).
    by vm_compute.
  - by vm_compute.
Qed.

Lemma get_pokemon_names_after_load_witness :
  create_table "," accents_csv (Database None) = (Return tt, accents_db) /\
  exists l,
    get_pokemon_names accents_db = (Return l, accents_db) /\
    Sorted String.le l /\ l = ["flabébé"; "οδυσσευς"] /\
    length l = length (data_lines accents_csv).
Proof.
  assert (create_table "," accents_csv (Database None)
          = (Return tt, accents_db))
    as Hload by (vm_compute; reflexivity).
  split; [exact Hload|].
  destruct (get_pokemon_names_after_load "," accents_csv (Database None)
              accents_db Hload)
    as (hd & names & l & _ & _ & Hl & Hsorted & _ & Hlen & _).
  exists l. repeat split; try assumption.
  vm_compute in Hl. injection Hl as <-. reflexivity.
Defined.

Lemma table_exists_spec_witness :
  table_exists (Database None) = (Return false, Database None) /\
  table_exists sample_db = (Return true, sample_db).
Proof.
  destruct table_exists_spec as (Hall & Hnone & _). split.
  - apply Hnone. reflexivity.
  - destruct (Hall sample_db) as (b & Hb & _).
    rewrite Hb. vm_compute in Hb. injection Hb as <-. reflexivity.
Defined.

Lemma get_stats_by_name_spec_witness :
  get_stats_by_name "mew" sample_db = (Raise IndexError, sample_db) /\
  (exists r, get_stats_by_name "pikachu" sample_db = (Return r, sample_db) /\
             name r = "pikachu" /\ url_image r = "http://p") /\
  get_stats_by_name "pikachu" (Database None)
    = (Raise OperationalError, Database None).
Proof.
  split; [|split].
  - apply (proj1 (get_stats_by_name_spec sample_db "mew")).
    intros r Hr. apply list_elem_of_In in Hr. simpl in Hr.
    destruct Hr as [<-|[<-|[<-|[]]]]; discriminate.
  - destruct (proj2 (get_stats_by_name_spec sample_db "pikachu"))
      as (r & Hr & _ & Hn & Hfirst).
    + eexists. split; [left|reflexivity].
    + exists r. split; [exact Hr|]. split; [exact Hn|].
      vm_compute in Hfirst. injection Hfirst as <-. reflexivity.
  - exact (get_stats_by_name_spec (Database None) "pikachu").
Defined.

Lemma get_pokemon_types_spec_witness :
  exists l,
    get_pokemon_types sample_db = (Return l, sample_db) /\
    l = [""; "electric"; "grass"; "poison"].
Proof.
  destruct (get_pokemon_types_spec sample_db) as (l & Hl & _ & _ & _ & Huniq).
  exists l. split; [exact Hl|].
  vm_compute in Hl. injection Hl as <-. reflexivity.
Defined.

Lemma get_pokemon_by_type_spec_witness :
  (exists l,
      get_pokemon_by_type "electric" sample_db = (Return l, sample_db) /\
      l = ["pikachu"]) /\
  get_pokemon_by_type "water" sample_db = (Return [], sample_db).
Proof.
  split.
  - destruct (get_pokemon_by_type_spec sample_db "electric")
      as (l & Hl & _).
    exists l. split; [exact Hl|].
    vm_compute in Hl. injection Hl as <-. reflexivity.
  - destruct (get_pokemon_by_type_spec sample_db "water")
      as (l & Hl & _ & _ & _ & _ & Hempty).
    rewrite Hl. rewrite Hempty; [reflexivity|].
    intros r Hr. apply list_elem_of_In in Hr. simpl in Hr.
    destruct Hr as [<-|[<-|[<-|[]]]]; split; discriminate.
Defined.

Lemma lowercase_invariant_witness :
  (create_table "," accents_csv (Database None)).2 = accents_db /\
  Forall (fun r =>
            lower (name r) = name r /\ lower (type_1 r) = type_1 r /\
            lower (type_2 r) = type_2 r /\
            lower (url_image r) = url_image r /\
            lower (evolves_from_species_id r) = evolves_from_species_id r)
         (stored_rows accents_db) /\
  run "," (GetByName "Flabébé") accents_db = accents_db /\
  run_all "," [ListNames; GetByName "Mew"; Load no_weight_csv; GetById 7;
               Load sample_csv; ListTypes]
    (create_table "," accents_csv (Database None)).2 = sample_db /\
  lowercase_table
    (run_all "," [ListNames; GetByName "Mew"; Load no_weight_csv; GetById 7;
                  Load sample_csv; ListTypes]
       (create_table "," accents_csv (Database None)).2).
Proof.
  assert ((create_table "," accents_csv (Database None)).2 = accents_db)
    as Hload by (vm_compute; reflexivity).
  destruct (lowercase_invariant "," accents_csv (Database None))
    as ((rows & Hrows & Hlow) & Hread & Hinv).
  split; [exact Hload|]. split; [|split; [|split]].
  - rewrite Hload in Hrows. rewrite Hrows. exact Hlow.
  - apply Hread. intros csv0. discriminate.
  - vm_compute. reflexivity.
  - apply Hinv.
Defined.


Lemma create_table_idempotent_witness :
  create_table "," sample_csv (Database None) = (Return tt, sample_db) /\
  create_table "," sample_csv sample_db = (Return tt, sample_db) /\
  get_pokemon_names sample_db = get_pokemon_names sample_db /\
  forall db0, create_table "," sample_csv db0 = (Return tt, sample_db).
Proof.
  assert (create_table "," sample_csv (Database None) = (Return tt, sample_db))
    as H1 by (vm_compute; reflexivity).
  assert (create_table "," sample_csv sample_db = (Return tt, sample_db))
    as H2 by (vm_compute; reflexivity).
  destruct (create_table_idempotent "," sample_csv (Database None)
              (Return tt) (Return tt) sample_db sample_db H1 H2)
    as (_ & _ & _ & _ & Hnames & _ & _ & _ & _ & _ & Hany).
  repeat split; assumption.
Defined.

(** * Concrete runs of the further properties *)

Lemma get_stats_by_id_spec_witness :
  get_stats_by_id 7 sample_db = (Raise IndexError, sample_db) /\
  (exists r, get_stats_by_id 25 sample_db = (Return r, sample_db) /\
             url_image r = "http://p") /\
  get_stats_by_id (2 ^ 63) sample_db = (Raise OverflowError, sample_db).
Proof.
  split; [|split].
  - apply (proj1 (proj2 (get_stats_by_id_spec sample_db 7) ltac:(lia))).
    intros r Hr. apply list_elem_of_In in Hr. simpl in Hr.
    destruct Hr as [<-|[<-|[<-|[]]]]; discriminate.
  - destruct (proj2 (proj2 (get_stats_by_id_spec sample_db 25) ltac:(lia)))
      as (r & k & Hr & _).
    + eexists. split; [left|reflexivity].
    + exists r. split; [exact Hr|].
      vm_compute in Hr. injection Hr as <-. reflexivity.
  - apply (proj1 (get_stats_by_id_spec sample_db (2 ^ 63))). lia.
Defined.

Lemma listed_iff_found_witness :
  (exists r, get_stats_by_name "pikachu" sample_db = (Return r, sample_db) /\
             name r = "pikachu") /\
  get_stats_by_name "mew" sample_db = (Raise IndexError, sample_db) /\
  (exists r, get_stats_by_id 1 sample_db = (Return r, sample_db) /\
             species_id r = 1%Z) /\
  get_stats_by_id (- 2 ^ 63 - 1) sample_db = (Raise OverflowError, sample_db).
Proof.
  assert (get_pokemon_names sample_db
          = (Return ["bulbasaur"; "pikachu"; "pikachu"], sample_db)) as Hnames
    by (vm_compute; reflexivity).
  assert (get_pokemon_ids sample_db = (Return [1; 25; 25]%Z, sample_db)) as Hids
    by (vm_compute; reflexivity).
  destruct (listed_iff_found sample_db) as [Hn Hi].
  split; [|split; [|split]].
  - apply (proj1 (Hn _ Hnames "pikachu")).
    apply list_elem_of_In. simpl. tauto.
  - apply (proj2 (Hn _ Hnames "mew")).
    intros Hin. apply list_elem_of_In in Hin. simpl in Hin.
    destruct Hin as [Hin|[Hin|[Hin|[]]]]; discriminate Hin.
  - apply (proj1 (proj1 (Hi _ Hids 1%Z) ltac:(lia))).
    apply list_elem_of_In. simpl. tauto.
  - apply (proj2 (Hi _ Hids (- 2 ^ 63 - 1)%Z)). lia.
Defined.

Lemma create_table_returns_iff_witness :
  create_table "," sample_csv (Database None) = (Return tt, sample_db) /\
  exists header_dict rows,
    (parse_header "," (open sample_csv)).1 = Return header_dict /\
    Forall2 (fun line r => line_row "," header_dict line = Return r)
            (data_lines sample_csv) rows /\
    sample_db = Database (Some rows).
Proof.
  assert (create_table "," sample_csv (Database None) = (Return tt, sample_db))
    as Hload by (vm_compute; reflexivity).
  split; [exact Hload|].
  exact (proj1 (create_table_returns_iff "," sample_csv (Database None)
                  sample_db) Hload).
Defined.


Lemma line_row_spec_witness :
  line_row "," bulbasaur_header_dict
    "1,Bulbasaur,0.7,6.9,Grass,Poison,http://x,1," = Return bulbasaur /\
  (exists x_pokemon x_height h,
     name bulbasaur = lower x_pokemon /\
     float x_height = Return h /\ height bulbasaur = bind_real h) /\
  line_row "," bulbasaur_header_dict
    "١,BULBASAUR,0.7,6.9,Grass,Poison,http://x,１," = Return bulbasaur /\
  line_row "," bulbasaur_header_dict
    (String "031" "1,Bulbasaur,0.7,6.9,Grass,Poison,http://x,1,")
    = Return bulbasaur /\
  line_row "," bulbasaur_header_dict
    ("1,Bulbasaur,0.7,6.9,Grass,Poison,http://x," ++ String "031" "1,")
    = Raise ValueError.
Proof.
  assert (line_row "," bulbasaur_header_dict
            "1,Bulbasaur,0.7,6.9,Grass,Poison,http://x,1," = Return bulbasaur)
    as Hrow by (vm_compute; reflexivity).
  split; [exact Hrow|].
  destruct (proj1 (line_row_spec "," bulbasaur_header_dict _ bulbasaur) Hrow)
    as (fields & x1 & x2 & x3 & x4 & x5 & x6 & x7 & x8 & x9 & h & w & _ & _ & _
          & _ & _ & _ & _ & _ & _ & _ & Hn & _ & _ & Hh & Hb & _).
  split; [exists x1, x3, h; repeat split; assumption|].
  split; [|split]; vm_compute; reflexivity.
Defined.

Lemma parse_header_returns_witness :
  (parse_header "," (open nbsp_header_csv)).1 = Return plain_header_dict /\
  dom plain_header_dict = list_to_set columns.
Proof.
  assert ((parse_header "," (open nbsp_header_csv)).1
          = Return plain_header_dict) as Hhd by (vm_compute; reflexivity).
  split; [exact Hhd|].
  destruct (parse_header_returns "," _ _ Hhd) as (header & _ & _ & Hdom & _).
  exact Hdom.
Defined.



Lemma table_exists_after_load_witness :
  table_exists sample_db = (Return true, sample_db) /\
  table_exists (Database (Some [])) = (Return false, Database (Some [])) /\
  create_table "," header_only_csv sample_db = (Return tt, Database (Some [])).
Proof.
  assert (create_table "," sample_csv (Database None) = (Return tt, sample_db))
    as H1 by (vm_compute; reflexivity).
  assert (create_table "," header_only_csv sample_db
          = (Return tt, Database (Some []))) as H2 by (vm_compute; reflexivity).
  split; [|split; [|exact H2]].
  - rewrite (proj1 (table_exists_after_load "," _ _ _ H1)). reflexivity.
  - rewrite (proj1 (table_exists_after_load "," _ _ _ H2)). reflexivity.
Defined.

Lemma load_then_get_stats_by_name_witness :
  exists r,
    get_stats_by_name "flabébé" accents_db = (Return r, accents_db) /\
    name r = "flabébé".
Proof.
  assert (create_table "," accents_csv (Database None)
          = (Return tt, accents_db))
    as Hload by (vm_compute; reflexivity).
  destruct (load_then_get_stats_by_name "," accents_csv (Database None)
              accents_db plain_header_dict 0
              ("FLABÉBÉ,669,0.4,6.0,Fairy,,HTTP://F,6," ++ String "010" "")%string
              Hload)
    as (fields & x & r & k' & line' & Hs & Hf & Hget & Hn & _).
  - vm_compute. reflexivity.
  - vm_compute. reflexivity.
  - exists r.
    assert (lower x = "flabébé") as Hx.
    { vm_compute in Hs. injection Hs as <-.
      destruct Hf as (i & Hi & Hfi). vm_compute in Hi. injection Hi as <-.
      vm_compute in Hfi. injection Hfi as <-. vm_compute. reflexivity. }
    rewrite Hx in Hget, Hn. split; assumption.
Defined.



Lemma listed_types_have_names_witness :
  (exists l, get_pokemon_by_type "grass" sample_db = (Return l, sample_db) /\
             l <> []) /\
  ~ exists l, get_pokemon_by_type "water" sample_db = (Return l, sample_db) /\
              l <> [].
Proof.
  assert (get_pokemon_types sample_db
          = (Return [""; "electric"; "grass"; "poison"], sample_db)) as Htypes
    by (vm_compute; reflexivity).
  pose proof (listed_types_have_names sample_db _ Htypes) as H.
  split.
  - apply (proj1 (H "grass")). apply list_elem_of_In. simpl. tauto.
  - intros Hw. apply (proj2 (H "water")) in Hw.
    apply list_elem_of_In in Hw. simpl in Hw.
    repeat (destruct Hw as [Hw|Hw]; [discriminate Hw|]). exact Hw.
Defined.

Lemma names_by_listed_types_witness :
  exists t l,
    get_pokemon_by_type t sample_db = (Return l, sample_db) /\
    "bulbasaur" ∈ l.
Proof.
  assert (get_pokemon_names sample_db
          = (Return ["bulbasaur"; "pikachu"; "pikachu"], sample_db)) as Hnames
    by (vm_compute; reflexivity).
  destruct (names_by_listed_types sample_db _ Hnames)
    as (types & _ & Hcover & _).
  destruct (proj1 (Hcover "bulbasaur")) as (t & l & _ & Hl & Hin).
  - apply list_elem_of_In. simpl. tauto.
  - exists t, l. split; assumption.
Defined.

Lemma unique_and_sort_set_witness :
  unique_and_sort ["b"; "a"; "b"] = unique_and_sort ["a"; "b"] /\
  unique_and_sort ["a"; "b"] = ["a"; "b"] /\
  unique_and_sort ["b"; "a"] = sorted ["b"; "a"].
Proof.
  split; [|split].
  - apply (proj1 (unique_and_sort_set ["b"; "a"; "b"] ["a"; "b"])).
    intros x. rewrite !elem_of_cons, !elem_of_nil. tauto.
  - apply (proj1 (proj2 (proj2 (unique_and_sort_set ["a"; "b"] [])))).
    + repeat constructor.
    + apply (bool_decide_unpack (NoDup ["a"; "b"])). vm_compute. exact I.
  - apply (proj1 (proj2 (proj2 (proj2 (unique_and_sort_set ["b"; "a"] []))))).
    apply (bool_decide_unpack (NoDup ["b"; "a"])). vm_compute. exact I.
Defined.

Lemma table_exists_guard_witness :
  (exists names, get_pokemon_names sample_db = (Return names, sample_db) /\
                 names <> []) /\
  forall n r,
    get_stats_by_name n (Database None) <> (Return r, Database None).
Proof.
  split.
  - apply (proj1 (table_exists_guard sample_db)). vm_compute. reflexivity.
  - apply (proj2 (table_exists_guard (Database None))). vm_compute. reflexivity.
Defined.

Lemma listings_order_independent_witness :
  (get_pokemon_names (Database (Some [pikachu; bulbasaur]))).1
  = (get_pokemon_names (Database (Some [bulbasaur; pikachu]))).1.
Proof.
  apply (listings_order_independent [pikachu; bulbasaur] [bulbasaur; pikachu]).
  apply Permutation_swap.
Defined.

Lemma create_table_exceptions_witness :
  create_table "," overflow_csv sample_db
    = (Raise OverflowError, Database (Some [pikachu])) /\
  exists line, line ∈ data_lines overflow_csv.
Proof.
  assert (create_table "," overflow_csv sample_db
          = (Raise OverflowError, Database (Some [pikachu]))) as Hload
    by (vm_compute; reflexivity).
  split; [exact Hload|].
  destruct (create_table_exceptions "," _ _ _ _ Hload) as (_ & _ & Hover).
  destruct (Hover eq_refl) as (hd & line & p & _ & Hline & _).
  exists line. exact Hline.
Defined.
